(** * INA226 current / power monitor driver (lib/sensors/INA_226.cpp)

    A shallow embedding of the driver: the object is a record, every member
    function is a state transformer on that record (the only field a member
    function ever updates is the bus handle [i2c_]), the bus transport is an
    interface (a type class), and [float] / [double] are IEEE 754 binary32 /
    binary64 as specified by the Standard Library's [SpecFloat]. *)

From Stdlib Require Import ZArith List Bool Lia QArith Qabs Qpower.
From Stdlib Require Import Floats.SpecFloat.
From coqutil Require Import Byte.
From stdpp Require Import gmap.

Import ListNotations.
Local Open Scope Z_scope.

(** ** Floating point: C++ [float] and [double] *)

Record float_format := { prec : Z; emax : Z }.

Definition binary32 := {| prec := 24; emax := 128 |}.
Definition binary64 := {| prec := 53; emax := 1024 |}.

Module Flt.
Section Format.
Variable F : float_format.

Definition mul : spec_float -> spec_float -> spec_float :=
  SFmul (prec F) (emax F).
Definition div : spec_float -> spec_float -> spec_float :=
  SFdiv (prec F) (emax F).
Definition leb : spec_float -> spec_float -> bool := SFleb.

(** Integer to floating conversion (round to nearest even). *)
Definition of_Z (z : Z) : spec_float :=
  binary_normalize (prec F) (emax F) z 0 false.

(** Conversion of a floating value of another format into [F]. *)
Definition convert (x : spec_float) : spec_float :=
  match x with
  | S754_finite s m e =>
      binary_normalize (prec F) (emax F) (cond_Zopp s (Zpos m)) e s
  | _ => x
  end.

(** The decimal literal [n / 10^k] written in the source text: the
    correctly rounded quotient of two exactly represented integers. *)
Definition literal (n : Z) (k : Z) : spec_float :=
  div (of_Z n) (of_Z (10 ^ k)).
End Format.

(** Exact rational value of a finite floating value. *)
Definition to_Q (x : spec_float) : Q :=
  match x with
  | S754_finite s m e =>
      (inject_Z (cond_Zopp s (Zpos m)) * Qpower (2 # 1) e)%Q
  | _ => 0%Q
  end.

(** [x * 2^k] with the mantissa of [x] kept. *)
Definition scale2 (x : spec_float) (k : Z) : spec_float :=
  match x with
  | S754_finite s m e => S754_finite s m (e + k)
  | _ => x
  end.

(** [x] is a [float] whose 32768th part is a normal [float] (or [x] is
    a zero, an infinity or not a number). *)
Definition divisible (x : spec_float) : bool :=
  match x with
  | S754_finite s m e => bounded 24 128 m e && (-134 <=? e)
  | _ => true
  end.

Definition is_finite (x : spec_float) : bool :=
  match x with
  | S754_finite _ _ _ | S754_zero _ => true
  | _ => false
  end.

(** C++ floating-integral conversion: the fractional part is discarded
    (truncation toward zero). *)
Definition trunc (x : spec_float) : Z :=
  match x with
  | S754_finite s m e => cond_Zopp s (Z.shiftl (Zpos m) e)
  | _ => 0
  end.
End Flt.

Definition float := spec_float.
Definition double := spec_float.

(** ** Fixed-width unsigned integers *)

Definition u_int16_t (z : Z) : Z := z mod 2 ^ 16.
Definition u_int8_t (z : Z) : Z := z mod 2 ^ 8.

(** ** The bus transport *)

Definition PinName := Z.

(** Modelled from the spec: the I2C bus transport is an external
    collaborator (the class of the member [i2c_], declared outside this file).
    It offers a blocking [write (address, buffer, length)] and a blocking
    [read (address, buffer, length, repeated)], each reporting the outcome of
    the transaction in the status it returns (0 on acknowledge, non-zero on
    failure).  [read] fills the caller's buffer, so it returns the buffer as
    the transport left it.  [H] is the state of the bus handle. *)
Class I2C (H : Type) := {
  i2c_open : PinName -> PinName -> H;
  i2c_write : H -> Z -> list byte -> nat -> Z * H;
  i2c_read : H -> Z -> list byte -> nat -> bool -> Z * list byte * H
}.

(** ** Scale constants (INA_226.cpp, lines 7-10) *)

Definition INA_226_CALIBRATION_REGISTER_CONSTANT : float :=
  Flt.convert binary32 (Flt.literal binary64 512 5).
Definition INA_226_CURRENT_REGISTER_LSB : float :=
  Flt.convert binary32 (Flt.literal binary64 1 3).
Definition INA_226_VOLTAGE_REGISTER_LSB : float :=
  Flt.convert binary32 (Flt.literal binary64 125 5).
Definition INA_226_POWER_REGISTER_LSB : float :=
  Flt.mul binary32 (Flt.of_Z binary32 25) INA_226_CURRENT_REGISTER_LSB.

(** [pow(2, 15)] of math.h: a [double]. *)
Definition pow_2_15 : double := Flt.of_Z binary64 (2 ^ 15).

(** ** Caller-supplied values *)

(** Modelled from the spec: [ComponentConfig] is declared in INA_226.h; it
    carries the maximum expected current and the shunt resistance as floats,
    the 7-bit device address and the two bus pins. *)
Record ComponentConfig := {
  max_expected_current : float;
  shunt_resistance : float;
  sensor_address : Z;
  SDA_pinname : PinName;
  SCL_pinname : PinName
}.

(** Modelled from the spec: [SensorModes] is declared in INA_226.h; a bundle
    of five integer sub-fields. *)
Record SensorModes := {
  operation_mode : Z;
  shunt_voltage_conversion_setting : Z;
  bus_voltage_conversion_setting : Z;
  average_mode_setting : Z;
  reset_registers : Z
}.

(** ** The driver object *)

Module INA_226.

(** Modelled from the spec: the data members are declared in INA_226.h;
    the wire address is an 8-bit integer, the register addresses are single
    bytes, the electrical quantities are floats. *)
Record t (H : Type) := Build {
  m_max_expected_current : float;
  m_current_lsb : float;
  m_shunt_resistance : float;
  m_sensor_address : Z;
  i2c_ : H;
  m_config_register : byte;
  m_voltage_register : byte;
  m_power_register : byte;
  m_current_register : byte;
  m_calibration_register : byte;
  m_mask_enable_register : byte;
  m_alert_limit_register : byte
}.
Arguments Build {H}.
Arguments m_max_expected_current {H}.
Arguments m_current_lsb {H}.
Arguments m_shunt_resistance {H}.
Arguments m_sensor_address {H}.
Arguments i2c_ {H}.
Arguments m_config_register {H}.
Arguments m_voltage_register {H}.
Arguments m_power_register {H}.
Arguments m_current_register {H}.
Arguments m_calibration_register {H}.
Arguments m_mask_enable_register {H}.
Arguments m_alert_limit_register {H}.

(** The register address map held by an object. *)
Definition register_map {H} (o : t H) : list byte :=
  [m_config_register o; m_voltage_register o; m_power_register o;
   m_current_register o; m_calibration_register o;
   m_mask_enable_register o; m_alert_limit_register o].

Section Driver.
Context {H : Type} `{I2C H}.

(** Member functions run on the object and may update it. *)
Definition M (A : Type) : Type := t H -> A * t H.

Definition ret {A} (a : A) : M A := fun o => (a, o).
Definition bind {A B} (c : M A) (k : A -> M B) : M B :=
  fun o => let (a, o') := c o in k a o'.

Notation "x <- c ;; k" := (bind c (fun x => k))
  (at level 100, c at next level, right associativity).
Notation "c ;;; k" := (bind c (fun _ => k))
  (at level 100, right associativity).

(** Reading a data member. *)
Definition member {A} (f : t H -> A) : M A := fun o => (f o, o).

(** Replacing the bus handle, every other member kept. *)
Definition with_i2c (o : t H) (h : H) : t H :=
  Build (m_max_expected_current o) (m_current_lsb o)
        (m_shunt_resistance o) (m_sensor_address o) h
        (m_config_register o) (m_voltage_register o)
        (m_power_register o) (m_current_register o)
        (m_calibration_register o) (m_mask_enable_register o)
        (m_alert_limit_register o).

(** [i2c_.write(address, data, length)]: the call's value is the
    transport's status. *)
Definition i2c_write_ (address : Z) (data : list byte) (length : nat)
  : M Z :=
  fun o => let (status, h) := i2c_write (i2c_ o) address data length in
           (status, with_i2c o h).

(** [i2c_.read(address, data, length, repeated)]: the call's value is
    the transport's status; the buffer is handed back as filled. *)
Definition i2c_read_ (address : Z) (data : list byte) (length : nat)
           (repeated : bool) : M (Z * list byte) :=
  fun o => let '(status, data', h) :=
             i2c_read (i2c_ o) address data length repeated in
           ((status, data'), with_i2c o h).

(** [cmd[i]] promoted to [int]. *)
Definition at_ (cmd : list byte) (i : nat) : Z :=
  byte.unsigned (nth i cmd Byte.x00).

(** Lines 12-29. *)
Definition INA_226 (component_config : ComponentConfig) : t H :=
  let max_current := max_expected_current component_config in
  {| m_max_expected_current := max_current;
     m_current_lsb :=
       Flt.convert binary32
         (Flt.div binary64 (Flt.convert binary64 max_current) pow_2_15);
     m_shunt_resistance := shunt_resistance component_config;
     m_sensor_address :=
       u_int8_t (Z.shiftl (sensor_address component_config) 1);
     i2c_ := i2c_open (SDA_pinname component_config)
                      (SCL_pinname component_config);
     m_config_register := byte.of_Z 0x00;
     m_voltage_register := byte.of_Z 0x01;
     m_power_register := byte.of_Z 0x03;
     m_current_register := byte.of_Z 0x04;
     m_calibration_register := byte.of_Z 0x05;
     m_mask_enable_register := byte.of_Z 0x06;
     m_alert_limit_register := byte.of_Z 0x07 |}.

(** Lines 33-44.  (Line 41 carries a stray closing bracket after
    [cmd[0]]; the expression is the one of the three sibling readers.) *)
Definition getCurrentData : M float :=
  reg <- member m_current_register ;;
  address <- member m_sensor_address ;;
  let cmd := [reg; byte.of_Z 0x00] in
  i2c_write_ address cmd 1 ;;;
  r <- i2c_read_ address cmd 2 false ;;
  let cmd := snd r in
  let current_data :=
    u_int16_t (Z.lor (Z.shiftl (at_ cmd 1) 8) (at_ cmd 0)) in
  ret (Flt.mul binary32 (Flt.of_Z binary32 current_data)
               INA_226_CURRENT_REGISTER_LSB).

(** Lines 46-56. *)
Definition getVoltageData : M float :=
  reg <- member m_voltage_register ;;
  address <- member m_sensor_address ;;
  let cmd := [reg; byte.of_Z 0x00] in
  i2c_write_ address cmd 1 ;;;
  r <- i2c_read_ address cmd 2 false ;;
  let cmd := snd r in
  let voltage_data :=
    u_int16_t (Z.lor (Z.shiftl (at_ cmd 1) 8) (at_ cmd 0)) in
  ret (Flt.mul binary32 (Flt.of_Z binary32 voltage_data)
               INA_226_VOLTAGE_REGISTER_LSB).

(** Lines 58-68 ([cmd[2] = {m_power_register}]: the second element is
    zero-initialised). *)
Definition getPowerData : M float :=
  reg <- member m_power_register ;;
  address <- member m_sensor_address ;;
  let cmd := [reg; byte.of_Z 0] in
  i2c_write_ address cmd 1 ;;;
  r <- i2c_read_ address cmd 2 false ;;
  let cmd := snd r in
  let power_data :=
    u_int16_t (Z.lor (Z.shiftl (at_ cmd 1) 8) (at_ cmd 0)) in
  ret (Flt.mul binary32 (Flt.of_Z binary32 power_data)
               INA_226_POWER_REGISTER_LSB).

(** Lines 81-87: the configuration word, built by successive [|=] into
    a [u_int16_t]. *)
Definition dataByte (configuration_bits : SensorModes) : Z :=
  let dataByte := 0x00 in
  let dataByte :=
    u_int16_t (Z.lor dataByte (operation_mode configuration_bits)) in
  let dataByte :=
    u_int16_t (Z.lor dataByte
      (Z.shiftl (shunt_voltage_conversion_setting configuration_bits) 3)) in
  let dataByte :=
    u_int16_t (Z.lor dataByte
      (Z.shiftl (bus_voltage_conversion_setting configuration_bits) 6)) in
  let dataByte :=
    u_int16_t (Z.lor dataByte
      (Z.shiftl (average_mode_setting configuration_bits) 9)) in
  u_int16_t (Z.lor dataByte
      (Z.shiftl (reset_registers configuration_bits) 15)).

(** Lines 78-94. *)
Definition configureSensor (configuration_bits : SensorModes) : M Z :=
  reg <- member m_config_register ;;
  address <- member m_sensor_address ;;
  let cmd := [reg; byte.of_Z 0x00; byte.of_Z 0x00] in
  let dataByte := dataByte configuration_bits in
  let cmd := <[1%nat := byte.of_Z (Z.land dataByte 0xFF)]> cmd in
  let cmd :=
    <[2%nat := byte.of_Z (Z.land (Z.shiftr dataByte 8) 0xFF)]> cmd in
  i2c_write_ address cmd 3 ;;;
  ret 0.

(** Line 98. *)
Definition cal (o : t H) : float :=
  Flt.div binary32 INA_226_CALIBRATION_REGISTER_CONSTANT
    (Flt.mul binary32 (m_current_lsb o) (m_shunt_resistance o)).

Section Calibrate.
(** Lines 102-103 apply [&] and [>>] to the [float] [cal]; C++ gives
    these operators no meaning on a floating operand, so the integer
    they act on is whatever conversion is in force: a parameter of the
    operation. *)
Variable integral : float -> Z.

(** Lines 96-108. *)
Definition calibrateSensor : M Z :=
  cal <- member cal ;;
  reg <- member m_calibration_register ;;
  address <- member m_sensor_address ;;
  let cmd := [reg; byte.of_Z 0x00; byte.of_Z 0x00] in
  let cmd := <[1%nat := byte.of_Z (Z.land (integral cal) 0xFF)]> cmd in
  let cmd :=
    <[2%nat := byte.of_Z (Z.land (Z.shiftr (integral cal) 8) 0xFF)]>
      cmd in
  i2c_write_ address cmd 3 ;;;
  ret 0.
End Calibrate.

(** Lines 124-133; the parameter is a [u_int16_t]. *)
Definition setMaskEnableRegister (bits_to_set : Z) : M Z :=
  let bits_to_set := u_int16_t bits_to_set in
  reg <- member m_mask_enable_register ;;
  address <- member m_sensor_address ;;
  let cmd := [reg; byte.of_Z 0x00; byte.of_Z 0x00] in
  let cmd := <[1%nat := byte.of_Z (Z.land bits_to_set 0xFF)]> cmd in
  let cmd :=
    <[2%nat := byte.of_Z (Z.land (Z.shiftr bits_to_set 8) 0xFF)]> cmd in
  i2c_write_ address cmd 3 ;;;
  ret 0.

(** Lines 137-147. *)
Definition getAlertLimit : M Z :=
  reg <- member m_alert_limit_register ;;
  address <- member m_sensor_address ;;
  let cmd := [reg; byte.of_Z 0x00] in
  i2c_write_ address cmd 1 ;;;
  r <- i2c_read_ address cmd 2 false ;;
  let cmd := snd r in
  let alert := u_int16_t (Z.lor (Z.shiftl (at_ cmd 1) 8) (at_ cmd 0)) in
  ret alert.

(** Lines 150-159; the parameter is a [u_int16_t]. *)
Definition setAlertLimit (alert_limit : Z) : M Z :=
  let alert_limit := u_int16_t alert_limit in
  reg <- member m_alert_limit_register ;;
  address <- member m_sensor_address ;;
  let cmd := [reg; byte.of_Z 0x00; byte.of_Z 0x00] in
  let cmd := <[1%nat := byte.of_Z (Z.land alert_limit 0xFF)]> cmd in
  let cmd :=
    <[2%nat := byte.of_Z (Z.land (Z.shiftr alert_limit 8) 0xFF)]> cmd in
  i2c_write_ address cmd 3 ;;;
  ret 0.
End Driver.
End INA_226.

(** ** A register store standing in for the chip

    The bus of the round-trip test: a write of one byte selects a register
    (the pointer write), a longer write selects the register and stores the
    bytes that follow, a read hands back the bytes stored in the selected
    register in the order they were written; a read of a register nothing
    was written to is not acknowledged and leaves the buffer alone. *)
Module RegisterStore.
Record bus := {
  pointer : Z;
  registers : gmap Z (list byte)
}.

Definition open (sda scl : PinName) : bus :=
  {| pointer := 0; registers := ∅ |}.

Definition write (b : bus) (address : Z) (data : list byte) (length : nat)
  : Z * bus :=
  match firstn length data with
  | [] => (1, b)
  | reg :: payload =>
      let p := byte.unsigned reg in
      (0, {| pointer := p;
             registers := match payload with
                          | [] => registers b
                          | _ => <[p := payload]> (registers b)
                          end |})
  end.

Definition read (b : bus) (address : Z) (data : list byte) (length : nat)
           (repeated : bool) : Z * list byte * bus :=
  match registers b !! pointer b with
  | Some stored =>
      let received := firstn length stored in
      (0, received ++ skipn (List.length received) data, b)
  | None => (1, data, b)
  end.

#[global] Instance transport : I2C bus :=
  {| i2c_open := open; i2c_write := write; i2c_read := read |}.
End RegisterStore.

(** ** A bus on which no device answers

    Every transaction is refused (status 1); a refused read leaves the
    caller's buffer as it was. *)
Module Unresponsive.
#[global] Instance transport : I2C unit :=
  {| i2c_open := fun _ _ => tt;
     i2c_write := fun h _ _ _ => (1, h);
     i2c_read := fun h _ data _ _ => (1, data, h) |}.
End Unresponsive.

(** ** Auxiliary definitions for the statements *)

(** The unsigned 16-bit value with low byte [lo] and high byte [hi]. *)
Definition le16 (lo hi : byte) : Z := byte.unsigned hi * 256 + byte.unsigned lo.

Section Transaction.
Context {H : Type} `{I2C H}.
Import INA_226.

(** The read transaction as the transport sees it: the pointer write of
    [reg], then the two-byte read into the buffer [[reg; 0]]. *)
Definition pointer_write (o : t H) (reg : byte) : Z * H :=
  i2c_write (i2c_ o) (m_sensor_address o) [reg; Byte.x00] 1.

Definition data_read (o : t H) (reg : byte) : Z * list byte * H :=
  i2c_read (snd (pointer_write o reg)) (m_sensor_address o)
           [reg; Byte.x00] 2 false.

(** The two bytes the buffer holds after the read. *)
Definition first_byte (o : t H) (reg : byte) : byte :=
  nth 0 (snd (fst (data_read o reg))) Byte.x00.
Definition second_byte (o : t H) (reg : byte) : byte :=
  nth 1 (snd (fst (data_read o reg))) Byte.x00.

(** The raw register value of the transaction. *)
Definition raw (o : t H) (reg : byte) : Z :=
  le16 (first_byte o reg) (second_byte o reg).

(** The write transaction as the transport sees it. *)
Definition register_write (o : t H) (reg lo hi : byte) : Z * H :=
  i2c_write (i2c_ o) (m_sensor_address o) [reg; lo; hi] 3.

(** Some transaction of the read accessor failed. *)
Definition transport_failed (o : t H) (reg : byte) : Prop :=
  fst (pointer_write o reg) <> 0 \/ fst (fst (data_read o reg)) <> 0.
End Transaction.

(** Scaling of a raw register value, as the three readers do it. *)
Definition scaled (lsb : float) (v : Z) : float :=
  Flt.mul binary32 (Flt.of_Z binary32 v) lsb.

(** [x] is finite and within the relative distance [2^-23] of the
    non-negative rational [q]. *)
Definition approximates (x : float) (q : Q) : Prop :=
  Flt.is_finite x = true /\
  (Qabs (Flt.to_Q x - q) <= q * (1 # 2 ^ 23))%Q.

Definition close_to (x : float) (q : Q) : bool :=
  Flt.is_finite x && Qle_bool (Qabs (Flt.to_Q x - q)) (q * (1 # 2 ^ 23)).

(** [0 <= x <= hi] in floating comparison. *)
Definition between_zero_and (hi x : float) : bool :=
  Flt.leb (S754_zero false) x && Flt.leb x hi.

(** [P] holds of the [n] integers from [v] on. *)
Fixpoint all_from (P : Z -> bool) (v : Z) (n : nat) : bool :=
  match n with
  | O => true
  | S n => P v && all_from P (v + 1) n
  end.

Definition all_u16 (P : Z -> bool) : bool :=
  all_from P 0 (Z.to_nat (2 ^ 16)).

(** A bench configuration: 1 A full scale over a 2 milliohm shunt, the
    chip at address 0x40. *)
Definition bench_config : ComponentConfig :=
  {| max_expected_current := Flt.of_Z binary32 1;
     shunt_resistance := Flt.convert binary32 (Flt.literal binary64 2 3);
     sensor_address := 0x40;
     SDA_pinname := 0;
     SCL_pinname := 1 |}.

(** The driver on a bus where no device answers. *)
Definition absent_chip : INA_226.t unit := INA_226.INA_226 bench_config.

(** The driver in front of a chip whose current register holds the bytes
    0x04, 0x00. *)
Definition present_chip : INA_226.t RegisterStore.bus :=
  INA_226.with_i2c (INA_226.INA_226 bench_config)
    {| RegisterStore.pointer := 0;
       RegisterStore.registers := {[ 4 := [Byte.x04; Byte.x00] ]} |}.

(** A caller can tell a failed [getCurrentData] from its result: some test
    on the returned value holds exactly when a transaction of the call
    failed. *)
Definition failure_propagates : Prop :=
  exists failed : float -> bool,
    forall (H : Type) (T : I2C H) (o : INA_226.t H),
      failed (fst (INA_226.getCurrentData o)) = true <->
      transport_failed o (INA_226.m_current_register o).

(** ** Further definitions for the statements *)

(** The members of an object other than the bus handle and the register
    address map. *)
Definition scalars {H : Type} (o : INA_226.t H)
  : float * float * float * Z :=
  (INA_226.m_max_expected_current o, INA_226.m_current_lsb o,
   INA_226.m_shunt_resistance o, INA_226.m_sensor_address o).

(** The register address map set by the constructor (lines 22-28). *)
Definition datasheet_map : list byte :=
  [Byte.x00; Byte.x01; Byte.x03; Byte.x04; Byte.x05; Byte.x06; Byte.x07].

(** The reading of raw value [v + 1] is finite and exceeds that of [v]. *)
Definition steps_up (lsb : float) (v : Z) : bool :=
  Flt.is_finite (scaled lsb v) && Flt.is_finite (scaled lsb (v + 1))
  && negb (Qle_bool (Flt.to_Q (scaled lsb (v + 1)))
                    (Flt.to_Q (scaled lsb v))).

(** The driver in front of a chip whose current register holds the bytes
    [lo], [hi]. *)
Definition chip_holding (lo hi : byte) : INA_226.t RegisterStore.bus :=
  INA_226.with_i2c (INA_226.INA_226 bench_config)
    {| RegisterStore.pointer := 0;
       RegisterStore.registers := {[ 4 := [lo; hi] ]} |}.

(** An object whose shunt resistance is zero. *)
Definition shorted_chip : INA_226.t unit :=
  INA_226.INA_226
    {| max_expected_current := Flt.of_Z binary32 1;
       shunt_resistance := S754_zero false;
       sensor_address := 0x40;
       SDA_pinname := 0;
       SCL_pinname := 1 |}.

(** The three measured quantities, each with its reader, its register
    member and its scale constant. *)
Inductive quantity := Current | Voltage | Power.

Definition lsb_of (q : quantity) : float :=
  match q with
  | Current => INA_226_CURRENT_REGISTER_LSB
  | Voltage => INA_226_VOLTAGE_REGISTER_LSB
  | Power => INA_226_POWER_REGISTER_LSB
  end.

Definition register_of {H : Type} (q : quantity) (o : INA_226.t H) : byte :=
  match q with
  | Current => INA_226.m_current_register o
  | Voltage => INA_226.m_voltage_register o
  | Power => INA_226.m_power_register o
  end.

Definition reader {H : Type} `{I2C H} (q : quantity) : INA_226.M float :=
  match q with
  | Current => INA_226.getCurrentData
  | Voltage => INA_226.getVoltageData
  | Power => INA_226.getPowerData
  end.

(** The object has the constructor's register map and the register store
    holds the two bytes of [v] in the alert-limit register 0x07. *)
Definition alert_limit_stored (v : Z) (o : INA_226.t RegisterStore.bus)
  : Prop :=
  INA_226.register_map o = datasheet_map
  /\ RegisterStore.registers (INA_226.i2c_ o) !! 7
     = Some [byte.of_Z (Z.land v 0xFF);
             byte.of_Z (Z.land (Z.shiftr v 8) 0xFF)].

(** * Properties *)

(** ** Integers and bytes *)

Lemma all_from_spec (P : Z -> bool) (n : nat) :
  forall v, all_from P v n = true ->
            forall z, v <= z < v + Z.of_nat n -> P z = true.
Proof.
  induction n as [|n IH]; intros v Hall z Hz.
  - lia.
  - cbn [all_from] in Hall. apply andb_prop in Hall as [Hv Hrest].
    destruct (Z.eq_dec z v) as [->|Hne]; [exact Hv|].
    apply (IH (v + 1) Hrest). lia.
Qed.

Lemma all_u16_spec (P : Z -> bool) :
  all_u16 P = true -> forall z, 0 <= z < 2 ^ 16 -> P z = true.
Proof.
  unfold all_u16. generalize (Z2Nat.id (2 ^ 16)).
  generalize (Z.to_nat (2 ^ 16)). intros n Hn Hall z Hz.
  apply (all_from_spec P n 0 Hall). lia.
Qed.

Lemma le16_range (lo hi : byte) : 0 <= le16 lo hi < 2 ^ 16.
Proof.
  pose proof (byte.unsigned_range lo); pose proof (byte.unsigned_range hi).
  unfold le16. lia.
Qed.

Lemma land_high_low (a b : Z) :
  0 <= b < 2 ^ 8 -> Z.land (Z.shiftl a 8) b = 0.
Proof.
  intros Hb. apply Z.bits_inj'. intros n Hn.
  rewrite Z.land_spec, Z.bits_0.
  destruct (Z.ltb_spec n 8).
  - rewrite Z.shiftl_spec_low by lia. reflexivity.
  - rewrite <- (Z.mod_small b (2 ^ 8)) by lia.
    rewrite Z.mod_pow2_bits_high by lia. apply andb_false_r.
Qed.

(** [cmd[1] << 8 | cmd[0]], stored in a [u_int16_t], is the 16-bit value
    with high byte [cmd[1]] and low byte [cmd[0]]. *)
Lemma assemble_le16 (lo hi : byte) :
  u_int16_t (Z.lor (Z.shiftl (byte.unsigned hi) 8) (byte.unsigned lo))
  = le16 lo hi.
Proof.
  pose proof (byte.unsigned_range lo); pose proof (byte.unsigned_range hi).
  unfold u_int16_t, le16.
  pose proof (Z.add_lor_land (Z.shiftl (byte.unsigned hi) 8)
                             (byte.unsigned lo)) as Hsum.
  rewrite land_high_low in Hsum by lia.
  rewrite Z.shiftl_mul_pow2 in Hsum |- * by lia.
  rewrite Z.mod_small; lia.
Qed.

(** The two bytes of a write: [value & 0xFF] and [value >> 8 & 0xFF]. *)
Lemma low_byte (v : Z) :
  byte.unsigned (byte.of_Z (Z.land v 0xFF)) = v mod 2 ^ 8.
Proof.
  rewrite byte.unsigned_of_Z. unfold byte.wrap.
  change 0xFF with (Z.ones 8). rewrite Z.land_ones by lia.
  apply Z.mod_mod. lia.
Qed.

Lemma high_byte (v : Z) :
  byte.unsigned (byte.of_Z (Z.land (Z.shiftr v 8) 0xFF)) = (v / 2 ^ 8) mod 2 ^ 8.
Proof.
  rewrite low_byte. rewrite Z.shiftr_div_pow2 by lia. reflexivity.
Qed.

Lemma split_le16 (v : Z) :
  0 <= v < 2 ^ 16 ->
  le16 (byte.of_Z (Z.land v 0xFF)) (byte.of_Z (Z.land (Z.shiftr v 8) 0xFF)) = v.
Proof.
  intros Hv. unfold le16. rewrite high_byte, low_byte.
  rewrite (Z.mod_small (v / 2 ^ 8)) by
    (split; [apply Z.div_pos; lia | apply Z.div_lt_upper_bound; lia]).
  pose proof (Z.div_mod v (2 ^ 8)). lia.
Qed.

(** ** What a call does to the object and to the bus *)

Section Runs.
Context {H : Type} `{I2C H}.
Import INA_226.

Lemma with_i2c_twice (o : t H) (h h' : H) :
  with_i2c (with_i2c o h) h' = with_i2c o h'.
Proof. reflexivity. Qed.

Lemma register_map_with_i2c (o : t H) (h : H) :
  register_map (with_i2c o h) = register_map o.
Proof. reflexivity. Qed.

Ltac run_read :=
  intros o;
  unfold getCurrentData, getVoltageData, getPowerData, getAlertLimit,
    bind, member, ret, i2c_write_, i2c_read_, raw, first_byte,
    second_byte, data_read, pointer_write, scaled, at_;
  cbn [fst snd];
  change (byte.of_Z 0) with Byte.x00;
  destruct (i2c_write (i2c_ o) (m_sensor_address o) _ 1) as [s1 h1];
  cbn [fst snd m_sensor_address i2c_ with_i2c];
  destruct (i2c_read h1 (m_sensor_address o) _ 2 false) as [[s2 buf] h2];
  cbn [fst snd]; rewrite assemble_le16; reflexivity.

Lemma getCurrentData_run : forall o : t H,
  getCurrentData o =
  (scaled INA_226_CURRENT_REGISTER_LSB (raw o (m_current_register o)),
   with_i2c o (snd (data_read o (m_current_register o)))).
Proof. run_read. Qed.

Lemma getVoltageData_run : forall o : t H,
  getVoltageData o =
  (scaled INA_226_VOLTAGE_REGISTER_LSB (raw o (m_voltage_register o)),
   with_i2c o (snd (data_read o (m_voltage_register o)))).
Proof. run_read. Qed.

Lemma getPowerData_run : forall o : t H,
  getPowerData o =
  (scaled INA_226_POWER_REGISTER_LSB (raw o (m_power_register o)),
   with_i2c o (snd (data_read o (m_power_register o)))).
Proof. run_read. Qed.

Lemma getAlertLimit_run : forall o : t H,
  getAlertLimit o =
  (raw o (m_alert_limit_register o),
   with_i2c o (snd (data_read o (m_alert_limit_register o)))).
Proof. run_read. Qed.

Ltac run_write :=
  intros;
  unfold configureSensor, calibrateSensor, setMaskEnableRegister,
    setAlertLimit, bind, member, ret, i2c_write_, register_write;
  cbn -[byte.of_Z Z.land Z.shiftr u_int16_t dataByte cal with_i2c];
  match goal with
  | |- context [i2c_write ?h ?a ?b ?n] =>
      destruct (i2c_write h a b n) as [s1 h1]
  end;
  reflexivity.

Lemma configureSensor_run (configuration_bits : SensorModes) (o : t H) :
  configureSensor configuration_bits o =
  (0, with_i2c o (snd (register_write o (m_config_register o)
        (byte.of_Z (Z.land (dataByte configuration_bits) 0xFF))
        (byte.of_Z (Z.land (Z.shiftr (dataByte configuration_bits) 8) 0xFF))))).
Proof. run_write. Qed.

Lemma calibrateSensor_run (integral : float -> Z) (o : t H) :
  calibrateSensor integral o =
  (0, with_i2c o (snd (register_write o (m_calibration_register o)
        (byte.of_Z (Z.land (integral (cal o)) 0xFF))
        (byte.of_Z (Z.land (Z.shiftr (integral (cal o)) 8) 0xFF))))).
Proof. run_write. Qed.

Lemma setMaskEnableRegister_run (bits_to_set : Z) (o : t H) :
  setMaskEnableRegister bits_to_set o =
  (0, with_i2c o (snd (register_write o (m_mask_enable_register o)
        (byte.of_Z (Z.land (u_int16_t bits_to_set) 0xFF))
        (byte.of_Z (Z.land (Z.shiftr (u_int16_t bits_to_set) 8) 0xFF))))).
Proof. run_write. Qed.

Lemma setAlertLimit_run (alert_limit : Z) (o : t H) :
  setAlertLimit alert_limit o =
  (0, with_i2c o (snd (register_write o (m_alert_limit_register o)
        (byte.of_Z (Z.land (u_int16_t alert_limit) 0xFF))
        (byte.of_Z (Z.land (Z.shiftr (u_int16_t alert_limit) 8) 0xFF))))).
Proof. run_write. Qed.
End Runs.

(** ** Exhaustive facts about the three scalings *)

Lemma close_to_spec (x : float) (q : Q) :
  close_to x q = true -> approximates x q.
Proof.
  unfold close_to, approximates. intros Hc.
  apply andb_prop in Hc as [Hfin Hle]. split; [exact Hfin|].
  apply Qle_bool_iff. exact Hle.
Qed.

Lemma current_scaling_close :
  all_u16 (fun v => close_to (scaled INA_226_CURRENT_REGISTER_LSB v)
                             (inject_Z v * (1 # 1000))) = true.
Proof. vm_compute. reflexivity. Qed.

Lemma voltage_scaling_close :
  all_u16 (fun v => close_to (scaled INA_226_VOLTAGE_REGISTER_LSB v)
                             (inject_Z v * (125 # 100000))) = true.
Proof. vm_compute. reflexivity. Qed.

Lemma power_scaling_close :
  all_u16 (fun v => close_to (scaled INA_226_POWER_REGISTER_LSB v)
                             (inject_Z v * (25 # 1000))) = true.
Proof. vm_compute. reflexivity. Qed.

Lemma current_scaling_bounded :
  all_u16 (fun v => between_zero_and
                      (scaled INA_226_CURRENT_REGISTER_LSB 65535)
                      (scaled INA_226_CURRENT_REGISTER_LSB v)) = true.
Proof. vm_compute. reflexivity. Qed.

Lemma voltage_scaling_bounded :
  all_u16 (fun v => between_zero_and
                      (scaled INA_226_VOLTAGE_REGISTER_LSB 65535)
                      (scaled INA_226_VOLTAGE_REGISTER_LSB v)) = true.
Proof. vm_compute. reflexivity. Qed.

Lemma power_scaling_bounded :
  all_u16 (fun v => between_zero_and
                      (scaled INA_226_POWER_REGISTER_LSB 65535)
                      (scaled INA_226_POWER_REGISTER_LSB v)) = true.
Proof. vm_compute. reflexivity. Qed.

Lemma u_int16_t_lor (a b : Z) :
  u_int16_t (Z.lor (u_int16_t a) b) = u_int16_t (Z.lor a b).
Proof.
  unfold u_int16_t. rewrite <- !Z.land_ones by lia.
  rewrite !Z.land_lor_distr_l, <- Z.land_assoc, Z.land_diag. reflexivity.
Qed.

(** ** The read accessors *)

Section Readers.
Context {H : Type} `{I2C H}.
Import INA_226.

Lemma raw_range (o : t H) (reg : byte) : 0 <= raw o reg < 2 ^ 16.
Proof. apply le16_range. Qed.

(** C1: whatever raw 16-bit value [v] the transport delivers,
    [getCurrentData] returns the float product of [v] and the float
    constant 0.001, [getVoltageData] that of [v] and 0.00125,
    [getPowerData] that of [v] and the power constant; each result is
    within the relative distance 2^-23 of the exact [v * 0.001],
    [v * 0.00125], [v * 0.025]; and the power constant is 25 times the
    current constant, which is the float nearest to 0.025. *)
Theorem scaled_readings (o : t H) :
  let current := raw o (m_current_register o) in
  let voltage := raw o (m_voltage_register o) in
  let power := raw o (m_power_register o) in
  (fst (getCurrentData o)
     = Flt.mul binary32 (Flt.of_Z binary32 current)
               INA_226_CURRENT_REGISTER_LSB
   /\ approximates (fst (getCurrentData o))
                   (inject_Z current * (1 # 1000)))
  /\ (fst (getVoltageData o)
        = Flt.mul binary32 (Flt.of_Z binary32 voltage)
                  INA_226_VOLTAGE_REGISTER_LSB
      /\ approximates (fst (getVoltageData o))
                      (inject_Z voltage * (125 # 100000)))
  /\ (fst (getPowerData o)
        = Flt.mul binary32 (Flt.of_Z binary32 power)
                  INA_226_POWER_REGISTER_LSB
      /\ approximates (fst (getPowerData o))
                      (inject_Z power * (25 # 1000)))
  /\ INA_226_POWER_REGISTER_LSB
       = Flt.mul binary32 (Flt.of_Z binary32 25)
                 INA_226_CURRENT_REGISTER_LSB
  /\ INA_226_POWER_REGISTER_LSB
       = Flt.convert binary32 (Flt.literal binary64 25 3).
Proof.
  cbv zeta.
  rewrite getCurrentData_run, getVoltageData_run, getPowerData_run.
  cbn [fst].
  split; [split; [reflexivity|] | split; [split; [reflexivity|] |
    split; [split; [reflexivity|] | split; reflexivity]]];
    apply close_to_spec.
  - apply (all_u16_spec _ current_scaling_close), raw_range.
  - apply (all_u16_spec _ voltage_scaling_close), raw_range.
  - apply (all_u16_spec _ power_scaling_close), raw_range.
Qed.

(** C2: in each of the four read accessors the two bytes left in the
    buffer by the read are put together with the second byte as the high
    byte and the first as the low byte; bytes 0x34, 0x12 give 0x1234, not
    0x3412. *)
Theorem little_endian_reassembly (o : t H) :
  let value reg :=
    byte.unsigned (second_byte o reg) * 2 ^ 8
    + byte.unsigned (first_byte o reg) in
  fst (getCurrentData o)
    = scaled INA_226_CURRENT_REGISTER_LSB (value (m_current_register o))
  /\ fst (getVoltageData o)
    = scaled INA_226_VOLTAGE_REGISTER_LSB (value (m_voltage_register o))
  /\ fst (getPowerData o)
    = scaled INA_226_POWER_REGISTER_LSB (value (m_power_register o))
  /\ fst (getAlertLimit o) = value (m_alert_limit_register o)
  /\ u_int16_t (Z.lor (Z.shiftl (at_ [Byte.x34; Byte.x12] 1) 8)
                      (at_ [Byte.x34; Byte.x12] 0)) = 0x1234
  /\ 0x1234 <> 0x3412.
Proof.
  cbv zeta.
  rewrite getCurrentData_run, getVoltageData_run, getPowerData_run,
    getAlertLimit_run.
  cbn [fst]. unfold raw, le16.
  repeat split; try reflexivity. discriminate.
Qed.

(** C6 (as amended): the three measurement readers never look at the
    status the transport returns.  Each performs the pointer write once
    and the two-byte read once, in that order and without retry, and
    returns the scaled value of the two bytes the buffer then holds,
    whatever the two statuses were; the object is left as it was but for
    the bus handle. *)
Theorem readers_ignore_status (o : t H) :
  getCurrentData o
    = (scaled INA_226_CURRENT_REGISTER_LSB (raw o (m_current_register o)),
       with_i2c o (snd (data_read o (m_current_register o))))
  /\ getVoltageData o
    = (scaled INA_226_VOLTAGE_REGISTER_LSB (raw o (m_voltage_register o)),
       with_i2c o (snd (data_read o (m_voltage_register o))))
  /\ getPowerData o
    = (scaled INA_226_POWER_REGISTER_LSB (raw o (m_power_register o)),
       with_i2c o (snd (data_read o (m_power_register o)))).
Proof.
  split; [apply getCurrentData_run|].
  split; [apply getVoltageData_run | apply getPowerData_run].
Qed.

(** C10: the reassembled register value is taken as unsigned: the alert
    limit lies in 0..65535 and every measurement lies between 0 and 65535
    times its scale constant, which for the current is the float 65.535;
    the raw value 0xFFFF (-1 in two's complement) reads as 65.535 A. *)
Theorem readings_unsigned (o : t H) :
  0 <= fst (getAlertLimit o) <= 65535
  /\ between_zero_and (scaled INA_226_CURRENT_REGISTER_LSB 65535)
                      (fst (getCurrentData o)) = true
  /\ between_zero_and (scaled INA_226_VOLTAGE_REGISTER_LSB 65535)
                      (fst (getVoltageData o)) = true
  /\ between_zero_and (scaled INA_226_POWER_REGISTER_LSB 65535)
                      (fst (getPowerData o)) = true
  /\ scaled INA_226_CURRENT_REGISTER_LSB 65535
       = Flt.convert binary32 (Flt.literal binary64 65535 3)
  /\ scaled INA_226_CURRENT_REGISTER_LSB (le16 Byte.xff Byte.xff)
       = Flt.convert binary32 (Flt.literal binary64 65535 3).
Proof.
  rewrite getCurrentData_run, getVoltageData_run, getPowerData_run,
    getAlertLimit_run.
  cbn [fst].
  split; [pose proof (raw_range o (m_alert_limit_register o)); lia|].
  split; [apply (all_u16_spec _ current_scaling_bounded), raw_range|].
  split; [apply (all_u16_spec _ voltage_scaling_bounded), raw_range|].
  split; [apply (all_u16_spec _ power_scaling_bounded), raw_range|].
  split; vm_compute; reflexivity.
Qed.
End Readers.

(** ** The write operations *)

Section Writers.
Context {H : Type} `{I2C H}.
Import INA_226.

Lemma dataByte_closed_form (configuration_bits : SensorModes) :
  dataByte configuration_bits
  = u_int16_t
      (Z.lor (Z.lor (Z.lor (Z.lor
         (operation_mode configuration_bits)
         (Z.shiftl (shunt_voltage_conversion_setting configuration_bits) 3))
         (Z.shiftl (bus_voltage_conversion_setting configuration_bits) 6))
         (Z.shiftl (average_mode_setting configuration_bits) 9))
         (Z.shiftl (reset_registers configuration_bits) 15)).
Proof.
  unfold dataByte. cbv zeta.
  repeat match goal with
         | |- context [u_int16_t (Z.lor (u_int16_t ?a) ?b)] =>
             lazymatch a with
             | context [u_int16_t] => fail
             | _ => rewrite (u_int16_t_lor a b)
             end
         end.
  rewrite Z.lor_0_l. reflexivity.
Qed.

(** C3: [configureSensor] sends, after the configuration register
    address, the low and the high byte of the 16-bit word
    [operation_mode | shunt << 3 | bus << 6 | average << 9 | reset << 15];
    no sub-field is masked, so an operation mode of 8 yields the very word
    of a shunt setting of 1; operation mode 0b111 alone yields 0x0007
    (bytes 0x07, 0x00) and the reset flag alone 0x8000 (bytes 0x00,
    0x80). *)
Theorem configuration_word (configuration_bits : SensorModes) (o : t H) :
  let word :=
    u_int16_t
      (Z.lor (Z.lor (Z.lor (Z.lor
         (operation_mode configuration_bits)
         (Z.shiftl (shunt_voltage_conversion_setting configuration_bits) 3))
         (Z.shiftl (bus_voltage_conversion_setting configuration_bits) 6))
         (Z.shiftl (average_mode_setting configuration_bits) 9))
         (Z.shiftl (reset_registers configuration_bits) 15)) in
  dataByte configuration_bits = word
  /\ configureSensor configuration_bits o
     = (0, with_i2c o (snd (register_write o (m_config_register o)
               (byte.of_Z (Z.land word 0xFF))
               (byte.of_Z (Z.land (Z.shiftr word 8) 0xFF)))))
  /\ (let only_mode := Build_SensorModes 7 0 0 0 0 in
      dataByte only_mode = 0x0007
      /\ byte.of_Z (Z.land (dataByte only_mode) 0xFF) = Byte.x07
      /\ byte.of_Z (Z.land (Z.shiftr (dataByte only_mode) 8) 0xFF)
         = Byte.x00)
  /\ (let only_reset := Build_SensorModes 0 0 0 0 1 in
      dataByte only_reset = 0x8000
      /\ byte.of_Z (Z.land (dataByte only_reset) 0xFF) = Byte.x00
      /\ byte.of_Z (Z.land (Z.shiftr (dataByte only_reset) 8) 0xFF)
         = Byte.x80)
  /\ dataByte (Build_SensorModes 8 0 0 0 0)
     = dataByte (Build_SensorModes 0 1 0 0 0).
Proof.
  cbv zeta. rewrite configureSensor_run, dataByte_closed_form.
  repeat split; reflexivity.
Qed.

(** C5: each of the four write operations returns 0, whatever its input
    and whatever status the transport gave to the write. *)
Theorem writers_return_success
        (configuration_bits : SensorModes) (integral : float -> Z)
        (bits_to_set alert_limit : Z) (o : t H) :
  fst (configureSensor configuration_bits o) = 0
  /\ fst (calibrateSensor integral o) = 0
  /\ fst (setMaskEnableRegister bits_to_set o) = 0
  /\ fst (setAlertLimit alert_limit o) = 0.
Proof.
  rewrite configureSensor_run, calibrateSensor_run,
    setMaskEnableRegister_run, setAlertLimit_run.
  repeat split; reflexivity.
Qed.

(** C9: construction sets the register address map to 0x00, 0x01, 0x03,
    0x04, 0x05, 0x06, 0x07 and no accessor, reading or writing, changes
    any of these members. *)
Theorem register_map_fixed
        (component_config : ComponentConfig)
        (configuration_bits : SensorModes) (integral : float -> Z)
        (bits_to_set alert_limit : Z) (o : t H) :
  register_map (INA_226 component_config)
    = [Byte.x00; Byte.x01; Byte.x03; Byte.x04; Byte.x05; Byte.x06;
       Byte.x07]
  /\ register_map (snd (getCurrentData o)) = register_map o
  /\ register_map (snd (getVoltageData o)) = register_map o
  /\ register_map (snd (getPowerData o)) = register_map o
  /\ register_map (snd (getAlertLimit o)) = register_map o
  /\ register_map (snd (configureSensor configuration_bits o))
     = register_map o
  /\ register_map (snd (calibrateSensor integral o)) = register_map o
  /\ register_map (snd (setMaskEnableRegister bits_to_set o))
     = register_map o
  /\ register_map (snd (setAlertLimit alert_limit o)) = register_map o.
Proof.
  rewrite getCurrentData_run, getVoltageData_run, getPowerData_run,
    getAlertLimit_run, configureSensor_run, calibrateSensor_run,
    setMaskEnableRegister_run, setAlertLimit_run.
  cbn [snd]. rewrite !register_map_with_i2c.
  repeat split; reflexivity.
Qed.
End Writers.

(** On a bus where no device answers the write is refused (status 1) and
    [setAlertLimit] still returns 0. *)
Example refused_write_reported_as_success :
  let o := INA_226.INA_226 (H := unit)
             (Build_ComponentConfig (S754_zero false) (S754_zero false)
                                    0x40 0 1) in
  fst (register_write o (INA_226.m_alert_limit_register o) Byte.x34 Byte.x12)
    = 1
  /\ fst (INA_226.setAlertLimit 0x1234 o) = 0.
Proof. split; reflexivity. Qed.

(** ** Transport failures *)

(** C6 (as stated) fails: with no device on the bus both transactions of
    [getCurrentData] are refused, and the call returns the very value it
    returns in front of a chip that answers with the bytes 0x04, 0x00; no
    test on the result tells the failed call from the successful one. *)
Lemma failure_not_propagated : ~ failure_propagates.
Proof.
  intros [failed Hfailed].
  assert (Hsame : fst (INA_226.getCurrentData absent_chip)
                  = fst (INA_226.getCurrentData present_chip))
    by (vm_compute; reflexivity).
  assert (Hbad : transport_failed absent_chip
                   (INA_226.m_current_register absent_chip))
    by (left; vm_compute; discriminate).
  assert (Hgood : ~ transport_failed present_chip
                      (INA_226.m_current_register present_chip))
    by (intros [Hw|Hr]; [apply Hw | apply Hr]; vm_compute; reflexivity).
  apply Hfailed in Hbad. rewrite Hsame in Hbad.
  apply Hfailed in Hbad. exact (Hgood Hbad).
Qed.

(** With no device on the bus the buffer still holds the register address
    0x04 and the zero it was initialised with, and [getCurrentData] returns
    4 * 0.001 although both transactions were refused. *)
Example refused_read_yields_a_value :
  fst (pointer_write absent_chip (INA_226.m_current_register absent_chip)) = 1
  /\ fst (fst (data_read absent_chip
                 (INA_226.m_current_register absent_chip))) = 1
  /\ fst (INA_226.getCurrentData absent_chip)
     = scaled INA_226_CURRENT_REGISTER_LSB 4.
Proof. repeat split; vm_compute; reflexivity. Qed.

(** ** Round trip through the register store *)

(** C7: on the register store, [getAlertLimit] after [setAlertLimit v]
    returns [v] for every 16-bit [v]; the store holds the low and the high
    byte of [v] itself, and the value read is their unscaled reassembly. *)
Theorem alert_limit_round_trip (o : INA_226.t RegisterStore.bus) (v : Z) :
  0 <= v < 2 ^ 16 ->
  let o' := snd (INA_226.setAlertLimit v o) in
  fst (INA_226.getAlertLimit o') = v
  /\ RegisterStore.registers (INA_226.i2c_ o')
       !! byte.unsigned (INA_226.m_alert_limit_register o)
     = Some [byte.of_Z (v mod 2 ^ 8); byte.of_Z (v / 2 ^ 8)].
Proof.
  intros Hv. cbv zeta.
  rewrite setAlertLimit_run.
  cbn [snd]. rewrite getAlertLimit_run. cbn [fst].
  unfold u_int16_t. rewrite (Z.mod_small v) by lia.
  unfold raw, first_byte, second_byte, data_read, pointer_write,
    register_write.
  cbn -[byte.of_Z Z.land Z.shiftr Z.pow Z.div Z.modulo RegisterStore.read].
  unfold RegisterStore.read.
  cbn [RegisterStore.pointer RegisterStore.registers].
  rewrite lookup_insert_eq.
  cbn [firstn List.length skipn app fst snd nth].
  split; [apply split_le16; exact Hv|].
  change 255 with (Z.ones 8).
  rewrite !Z.land_ones, Z.shiftr_div_pow2 by lia.
  rewrite (Z.mod_small (v / 2 ^ 8)) by
    (split; [apply Z.div_pos; lia | apply Z.div_lt_upper_bound; lia]).
  reflexivity.
Qed.

Lemma alert_limit_round_trip_witness :
  0 <= 0x1234 < 2 ^ 16
  /\ fst (INA_226.getAlertLimit
            (snd (INA_226.setAlertLimit 0x1234 present_chip))) = 0x1234.
Proof.
  assert (Hv : 0 <= 0x1234 < 2 ^ 16) by lia.
  split; [exact Hv|].
  exact (proj1 (alert_limit_round_trip present_chip 0x1234 Hv)).
Defined.

(** ** Division by [pow(2, 15)]

    A [float] widened to [double], divided by 32768 and narrowed again
    keeps its mantissa; only the exponent drops by 15. *)

Lemma div_eucl_exact (q b : Z) : 0 < b -> Z.div_eucl (q * b) b = (q, 0).
Proof.
  intros Hb. rewrite (surjective_pairing (Z.div_eucl (q * b) b)).
  change (fst (Z.div_eucl (q * b) b)) with (q * b / b).
  change (snd (Z.div_eucl (q * b) b)) with ((q * b) mod b).
  rewrite Z.div_mul, Z.mod_mul by lia. reflexivity.
Qed.

(** A canonical mantissa is left alone by rounding. *)
Lemma round_canonical (prec emax : Z) (s : bool) (m : positive) (e : Z) :
  bounded prec emax m e = true ->
  binary_round_aux prec emax s (Zpos m) e loc_Exact = S754_finite s m e.
Proof.
  unfold bounded, canonical_mantissa. intros Hb.
  apply andb_prop in Hb as [Hc He]. apply Z.eqb_eq in Hc.
  unfold binary_round_aux, shr_fexp. cbn [Zdigits2].
  rewrite Hc, Z.sub_diag. cbn [shr shr_record_of_loc shr_m loc_of_shr_record round_nearest_even].
  cbn [Zdigits2]. rewrite Hc, Z.sub_diag. cbn [shr shr_record_of_loc shr_m].
  rewrite He. reflexivity.
Qed.

Lemma normal_digits (m : positive) (e : Z) :
  bounded 24 128 m e = true -> -149 < e -> digits2_pos m = 24%positive.
Proof.
  unfold bounded, canonical_mantissa, fexp, emin. intros Hb He.
  apply andb_prop in Hb as [Hc _]. apply Z.eqb_eq in Hc.
  lia.
Qed.

Lemma to_double (s : bool) (m : positive) (e : Z) :
  bounded 24 128 m e = true -> -149 < e ->
  Flt.convert binary64 (S754_finite s m e)
  = S754_finite s (Pos.iter xO m 29) (e - 29).
Proof.
  intros Hb He. pose proof (normal_digits m e Hb He) as Hd.
  assert (e <= 104).
  { unfold bounded in Hb. apply andb_prop in Hb as [_ Hb]. lia. }
  unfold Flt.convert, binary_normalize. cbn [prec emax binary64].
  assert (Hr : binary_round 53 1024 s m e = S754_finite s (Pos.iter xO m 29) (e - 29)).
  { unfold binary_round, shl_align. rewrite Hd.
    unfold fexp, emin.
    replace (Z.max (24 + e - 53) (3 - 1024 - 53) - e) with (-29) by lia.
    replace (Z.max (24 + e - 53) (3 - 1024 - 53)) with (e - 29) by lia.
    apply round_canonical.
    unfold bounded, canonical_mantissa, fexp, emin.
    cbn [Pos.iter digits2_pos]. rewrite Hd. cbn [Pos.succ].
    apply andb_true_intro. split; [apply Z.eqb_eq | apply Z.leb_le]; lia. }
  destruct s; exact Hr.
Qed.

Lemma div_by_pow_2_15 (s : bool) (m : positive) (e : Z) :
  digits2_pos m = 24%positive -> -134 <= e <= 104 ->
  Flt.div binary64 (S754_finite s (Pos.iter xO m 29) (e - 29)) pow_2_15
  = S754_finite s (Pos.iter xO m 29) (e - 44).
Proof.
  intros Hd He.
  change pow_2_15 with (S754_finite false 4503599627370496 (-37)).
  unfold Flt.div, SFdiv, SFdiv_core_binary. cbn [prec emax binary64].
  set (M := Pos.iter xO m 29).
  assert (HM : digits2_pos M = 53%positive).
  { subst M. cbn [Pos.iter digits2_pos]. rewrite Hd. reflexivity. }
  cbn [Zdigits2]. rewrite HM.
  change (digits2_pos 4503599627370496) with 53%positive.
  assert (He' : Z.min (fexp 53 1024 (53 + (e - 29) - (53 + -37)))
                      (e - 29 - -37) = e - 45)
    by (unfold fexp, emin; lia).
  rewrite He'.
  replace (e - 29 - -37 - (e - 45)) with 53 by lia.
  rewrite Z.shiftl_mul_pow2 by lia.
  replace (Zpos M * 2 ^ 53) with (Zpos M~0 * 4503599627370496) by lia.
  rewrite div_eucl_exact by lia.
  change (new_location 4503599627370496 0) with loc_Exact.
  rewrite xorb_false_r.
  unfold binary_round_aux, shr_fexp.
  change (Zdigits2 (Zpos M~0)) with (Zpos (Pos.succ (digits2_pos M))).
  rewrite HM. change (Pos.succ 53) with 54%positive.
  unfold fexp at 1. unfold emin.
  replace (Z.max (54 + (e - 45) - 53) (3 - 1024 - 53) - (e - 45)) with 1 by lia.
  cbn [shr shr_record_of_loc SpecFloat.iter_pos shr_1 orb shr_m loc_of_shr_record
       round_nearest_even Zdigits2].
  rewrite HM. unfold fexp, emin.
  replace (Z.max (53 + (e - 45 + 1) - 53) (3 - 1024 - 53) - (e - 45 + 1))
    with 0 by lia.
  cbn [shr shr_record_of_loc shr_m].
  replace (e - 45 + 1 <=? 1024 - 53) with true by (symmetry; apply Z.leb_le; lia).
  f_equal. lia.
Qed.

Lemma to_float (s : bool) (m : positive) (e : Z) :
  digits2_pos m = 24%positive -> -134 <= e <= 104 ->
  Flt.convert binary32 (S754_finite s (Pos.iter xO m 29) (e - 44))
  = S754_finite s m (e - 15).
Proof.
  intros Hd He.
  unfold Flt.convert, binary_normalize. cbn [prec emax binary32].
  set (M := Pos.iter xO m 29).
  assert (HM : digits2_pos M = 53%positive).
  { subst M. cbn [Pos.iter digits2_pos]. rewrite Hd. reflexivity. }
  assert (Hr : binary_round 24 128 s M (e - 44) = S754_finite s m (e - 15)).
  { unfold binary_round, shl_align. rewrite HM.
    unfold fexp at 1 2. unfold emin.
    replace (Z.max (53 + (e - 44) - 24) (3 - 128 - 24) - (e - 44)) with 29 by lia.
    unfold binary_round_aux, shr_fexp. cbn [Zdigits2]. rewrite HM.
    unfold fexp at 1. unfold emin.
    replace (Z.max (53 + (e - 44) - 24) (3 - 128 - 24) - (e - 44)) with 29 by lia.
    subst M.
    cbn [Pos.iter shr shr_record_of_loc SpecFloat.iter_pos shr_1 orb shr_m
         loc_of_shr_record round_nearest_even Zdigits2].
    rewrite Hd. unfold fexp, emin.
    replace (Z.max (24 + (e - 44 + 29) - 24) (3 - 128 - 24) - (e - 44 + 29))
      with 0 by lia.
    cbn [shr shr_record_of_loc shr_m].
    replace (e - 44 + 29 <=? 128 - 24) with true
      by (symmetry; apply Z.leb_le; lia).
    f_equal. lia. }
  destruct s; exact Hr.
Qed.

Lemma current_lsb_exact (x : float) :
  Flt.divisible x = true ->
  Flt.convert binary32 (Flt.div binary64 (Flt.convert binary64 x) pow_2_15)
  = Flt.scale2 x (-15).
Proof.
  destruct x as [s|s| |s m e]; intros Hx.
  - destruct s; reflexivity.
  - destruct s; reflexivity.
  - reflexivity.
  - cbn [Flt.divisible] in Hx. apply andb_prop in Hx as [Hb He].
    apply Z.leb_le in He.
    pose proof (normal_digits m e Hb ltac:(lia)) as Hd.
    assert (e <= 104).
    { unfold bounded in Hb. apply andb_prop in Hb as [_ Hb]. lia. }
    rewrite to_double by (trivial; lia).
    rewrite div_by_pow_2_15, to_float by (trivial; lia).
    reflexivity.
Qed.

Lemma to_Q_scale2 (x : float) (k : Z) :
  (Flt.to_Q (Flt.scale2 x k) == Flt.to_Q x * Qpower (2 # 1) k)%Q.
Proof.
  destruct x as [s|s| |s m e]; cbn [Flt.scale2 Flt.to_Q];
    try (rewrite Qmult_0_l; reflexivity).
  rewrite Qpower_plus by discriminate. apply Qmult_assoc.
Qed.

(** ** Division by 32768 in general

    For every valid [float] the detour through [double] gives the quotient
    the [float] division by 32768 gives: the [double] quotient is exact, so
    the only rounding is the one of the narrowing, and it is the rounding of
    the [float] division. *)

(** *** Number of digits *)

Lemma digits2_pos_size (p : positive) : digits2_pos p = Pos.size p.
Proof. induction p as [p IH|p IH|]; cbn; rewrite ?IH; reflexivity. Qed.

Lemma digits2_pos_bounds (p : positive) :
  2 ^ (Zpos (digits2_pos p) - 1) <= Zpos p < 2 ^ Zpos (digits2_pos p).
Proof.
  rewrite digits2_pos_size.
  pose proof (Pos.size_gt p) as Hgt. pose proof (Pos.size_le p) as Hle.
  apply Pos2Z.pos_lt_pos in Hgt. apply Pos2Z.pos_le_pos in Hle.
  rewrite Pos2Z.inj_pow in Hgt, Hle.
  replace (Zpos (Pos.size p)) with (Zpos (Pos.size p) - 1 + 1) in Hle by lia.
  rewrite Z.pow_add_r in Hle by lia.
  change (Zpos p~0) with (2 * Zpos p) in Hle. lia.
Qed.

Lemma digits2_pos_le (p : positive) (n : Z) :
  Zpos p < 2 ^ n -> Zpos (digits2_pos p) <= n.
Proof.
  intros Hp. destruct (Z.le_gt_cases (Zpos (digits2_pos p)) n) as [|Hgt];
    [assumption|].
  pose proof (digits2_pos_bounds p) as [Hlow _].
  assert (0 <= n \/ n < 0) as [Hn|Hn] by lia.
  - assert (2 ^ n <= 2 ^ (Zpos (digits2_pos p) - 1))
      by (apply Z.pow_le_mono_r; lia).
    lia.
  - rewrite Z.pow_neg_r in Hp by lia. lia.
Qed.

Lemma digits2_pos_ge (p : positive) (n : Z) :
  2 ^ n <= Zpos p -> n < Zpos (digits2_pos p).
Proof.
  intros Hp. destruct (Z.lt_ge_cases n (Zpos (digits2_pos p))) as [|Hge];
    [assumption|].
  pose proof (digits2_pos_bounds p) as [_ Hup].
  assert (2 ^ Zpos (digits2_pos p) <= 2 ^ n)
    by (apply Z.pow_le_mono_r; lia).
  lia.
Qed.

Lemma Zpos_iter_xO (m p : positive) :
  Zpos (Pos.iter xO m p) = Zpos m * 2 ^ Zpos p.
Proof.
  induction p as [|p IH] using Pos.peano_ind.
  - cbn. lia.
  - rewrite Pos.iter_succ, Pos2Z.inj_succ, Z.pow_succ_r by lia.
    change (Zpos (Pos.iter xO m p)~0) with (2 * Zpos (Pos.iter xO m p)).
    rewrite IH. lia.
Qed.

Lemma digits2_pos_iter_xO (m p : positive) :
  digits2_pos (Pos.iter xO m p) = (digits2_pos m + p)%positive.
Proof.
  induction p as [|p IH] using Pos.peano_ind.
  - cbn. lia.
  - rewrite Pos.iter_succ. cbn [digits2_pos]. rewrite IH. lia.
Qed.

(** *** Shifting right with a round bit and a sticky bit *)

Lemma iter_pos_nat {A : Type} (f : A -> A) (p : positive) :
  forall x, SpecFloat.iter_pos f p x = Nat.iter (Pos.to_nat p) f x.
Proof.
  induction p as [p IH|p IH|]; intros x; cbn [SpecFloat.iter_pos].
  - rewrite !IH, Pos2Nat.inj_xI. cbn [Nat.iter].
    rewrite <- Nat.iter_add, <- Nat.iter_succ_r. f_equal. lia.
  - rewrite !IH, Pos2Nat.inj_xO. rewrite <- Nat.iter_add. f_equal. lia.
  - reflexivity.
Qed.

Lemma new_location_even_exact (nb k : Z) :
  new_location_even nb k = loc_Exact <-> k = 0.
Proof.
  unfold new_location_even. destruct (Z.eqb_spec k 0); split; intros;
    congruence.
Qed.

Lemma shr_1_spec (z : Z) (r s : bool) (n : Z) :
  0 <= n -> 0 <= z ->
  loc_of_shr_record (Build_shr_record (z / 2 ^ n) r s)
    = new_location_even (2 ^ n) (z mod 2 ^ n) ->
  let rec := shr_1 (Build_shr_record (z / 2 ^ n) r s) in
  shr_m rec = z / 2 ^ (n + 1)
  /\ loc_of_shr_record rec
     = new_location_even (2 ^ (n + 1)) (z mod 2 ^ (n + 1)).
Proof.
  intros Hn Hz Hloc. cbv zeta.
  assert (Hpow : 0 < 2 ^ n) by (apply Z.pow_pos_nonneg; lia).
  assert (Hdiv : z / 2 ^ (n + 1) = z / 2 ^ n / 2).
  { rewrite Z.pow_add_r, Z.div_div by lia. reflexivity. }
  assert (Hmod : z mod 2 ^ (n + 1) = z mod 2 ^ n + 2 ^ n * ((z / 2 ^ n) mod 2)).
  { rewrite Z.pow_add_r by lia. apply Z.rem_mul_r; lia. }
  pose proof (Z.mod_pos_bound z (2 ^ n) Hpow) as Hrem.
  assert (Hsticky : orb r s = negb (z mod 2 ^ n =? 0)).
  { destruct (Z.eqb_spec (z mod 2 ^ n) 0) as [H0|H0].
    - apply (new_location_even_exact (2 ^ n)) in H0. rewrite H0 in Hloc.
      destruct r, s; cbn in Hloc; try discriminate. reflexivity.
    - destruct r, s; try reflexivity. cbn in Hloc. symmetry in Hloc.
      apply new_location_even_exact in Hloc. contradiction. }
  assert (Hq : 0 <= z / 2 ^ n) by (apply Z.div_pos; lia).
  rewrite Hdiv, Hmod. rewrite Z.pow_add_r by lia. change (2 ^ 1) with 2.
  set (q := z / 2 ^ n) in *. set (rem := z mod 2 ^ n) in *.
  clearbody q rem. unfold new_location_even.
  destruct q as [|[p|p|]|p]; try lia; cbn [shr_1 shr_m loc_of_shr_record];
    rewrite Hsticky.
  - (* q = 0 *)
    change (0 mod 2) with 0. change (0 / 2) with 0. split; [reflexivity|].
    rewrite Z.mul_0_r, Z.add_0_r.
    destruct (Z.eqb_spec rem 0); cbn [negb]; [reflexivity|].
    f_equal. symmetry. apply Z.compare_lt_iff. lia.
  - (* q = 2p+1 *)
    assert (Zpos p~1 mod 2 = 1 /\ Zpos p~1 / 2 = Zpos p) as [-> ->].
    { change (Zpos p~1) with (2 * Zpos p + 1).
      split; Z.div_mod_to_equations; lia. }
    split; [reflexivity|].
    destruct (Z.eqb_spec (rem + 2 ^ n * 1) 0); [lia|].
    destruct (Z.eqb_spec rem 0); cbn [negb]; f_equal; symmetry.
    + apply Z.compare_eq_iff. lia.
    + apply Z.compare_gt_iff. lia.
  - (* q = 2p *)
    assert (Zpos p~0 mod 2 = 0 /\ Zpos p~0 / 2 = Zpos p) as [-> ->].
    { change (Zpos p~0) with (2 * Zpos p).
      split; Z.div_mod_to_equations; lia. }
    split; [reflexivity|].
    rewrite Z.mul_0_r, Z.add_0_r.
    destruct (Z.eqb_spec rem 0); cbn [negb]; [reflexivity|].
    f_equal. symmetry. apply Z.compare_lt_iff. lia.
  - (* q = 1 *)
    change (1 mod 2) with 1. change (1 / 2) with 0. split; [reflexivity|].
    destruct (Z.eqb_spec (rem + 2 ^ n * 1) 0); [lia|].
    destruct (Z.eqb_spec rem 0); cbn [negb]; f_equal; symmetry.
    + apply Z.compare_eq_iff. lia.
    + apply Z.compare_gt_iff. lia.
Qed.

Lemma shr_steps (z : Z) (n : nat) :
  0 <= z ->
  let rec := Nat.iter n shr_1 (Build_shr_record z false false) in
  shr_m rec = z / 2 ^ Z.of_nat n
  /\ loc_of_shr_record rec
     = new_location_even (2 ^ Z.of_nat n) (z mod 2 ^ Z.of_nat n).
Proof.
  intros Hz. cbv zeta. induction n as [|n [IHm IHloc]].
  - cbn [Nat.iter shr_m loc_of_shr_record]. change (2 ^ Z.of_nat 0) with 1.
    rewrite Z.div_1_r, Z.mod_1_r. split; reflexivity.
  - rewrite Nat.iter_succ.
    destruct (Nat.iter n shr_1 (Build_shr_record z false false))
      as [m r s] eqn:Hrec.
    cbn [shr_m] in IHm. subst m.
    replace (Z.of_nat (S n)) with (Z.of_nat n + 1) by lia.
    apply shr_1_spec; [lia | exact Hz | exact IHloc].
Qed.

Lemma new_location_even_scale (a b c : Z) :
  0 < c -> new_location_even (a * c) (b * c) = new_location_even a b.
Proof.
  intros Hc. unfold new_location_even.
  destruct (Z.eqb_spec (b * c) 0), (Z.eqb_spec b 0); try reflexivity;
    try nia.
  f_equal. rewrite Z.mul_assoc. symmetry.
  apply Zmult_compare_compat_r. lia.
Qed.

Lemma loc_of_shr_record_of_loc (m : Z) (l : location) :
  shr_m (shr_record_of_loc m l) = m
  /\ loc_of_shr_record (shr_record_of_loc m l) = l.
Proof. destruct l as [|[| |]]; split; reflexivity. Qed.

(** Rounding depends on its argument only through the outcome of the first
    alignment. *)
Lemma binary_round_aux_ext (prec emax : Z) (s : bool)
      (m1 e1 : Z) (l1 : location) (m2 e2 : Z) (l2 : location) :
  snd (shr_fexp prec emax m1 e1 l1) = snd (shr_fexp prec emax m2 e2 l2) ->
  shr_m (fst (shr_fexp prec emax m1 e1 l1))
    = shr_m (fst (shr_fexp prec emax m2 e2 l2)) ->
  loc_of_shr_record (fst (shr_fexp prec emax m1 e1 l1))
    = loc_of_shr_record (fst (shr_fexp prec emax m2 e2 l2)) ->
  binary_round_aux prec emax s m1 e1 l1
  = binary_round_aux prec emax s m2 e2 l2.
Proof.
  unfold binary_round_aux.
  destruct (shr_fexp prec emax m1 e1 l1) as [r1 x1].
  destruct (shr_fexp prec emax m2 e2 l2) as [r2 x2].
  cbn [fst snd]. intros -> -> ->. reflexivity.
Qed.

(** The members of a valid [float]. *)
Lemma bounded_float (m : positive) (e : Z) :
  bounded 24 128 m e = true ->
  Zpos (digits2_pos m) <= 24 /\ -149 <= e <= 104
  /\ (-149 < e -> digits2_pos m = 24%positive).
Proof.
  unfold bounded, canonical_mantissa, fexp, emin. intros Hb.
  apply andb_prop in Hb as [Hc He]. apply Z.eqb_eq in Hc.
  apply Z.leb_le in He. lia.
Qed.

Lemma widen (s : bool) (m : positive) (e : Z) :
  bounded 24 128 m e = true ->
  let k := Z.to_pos (53 - Zpos (digits2_pos m)) in
  Flt.convert binary64 (S754_finite s m e)
  = S754_finite s (Pos.iter xO m k) (e - Zpos k).
Proof.
  intros Hb. cbv zeta.
  destruct (bounded_float m e Hb) as (Hd & He & _).
  set (k := Z.to_pos (53 - Zpos (digits2_pos m))).
  assert (Hk : Zpos k = 53 - Zpos (digits2_pos m)) by (subst k; lia).
  unfold Flt.convert, binary_normalize. cbn [prec emax binary64].
  assert (Hr : binary_round 53 1024 s m e
               = S754_finite s (Pos.iter xO m k) (e - Zpos k)).
  { unfold binary_round, shl_align.
    assert (Hf : fexp 53 1024 (Zpos (digits2_pos m) + e) = e - Zpos k)
      by (unfold fexp, emin; lia).
    rewrite Hf.
    replace (e - Zpos k - e) with (Zneg k) by lia.
    apply round_canonical.
    unfold bounded, canonical_mantissa, fexp, emin.
    rewrite digits2_pos_iter_xO.
    apply andb_true_intro. split; [apply Z.eqb_eq | apply Z.leb_le]; lia. }
  destruct s; exact Hr.
Qed.

Lemma divide_double (s : bool) (M : positive) (E : Z) :
  digits2_pos M = 53%positive -> -1000 <= E <= 900 ->
  Flt.div binary64 (S754_finite s M E) pow_2_15 = S754_finite s M (E - 15).
Proof.
  intros HM HE.
  change pow_2_15 with (S754_finite false 4503599627370496 (-37)).
  unfold Flt.div, SFdiv, SFdiv_core_binary. cbn [prec emax binary64].
  cbn [Zdigits2]. rewrite HM.
  change (digits2_pos 4503599627370496) with 53%positive.
  assert (He' : Z.min (fexp 53 1024 (53 + E - (53 + -37))) (E - -37) = E - 16)
    by (unfold fexp, emin; lia).
  rewrite He'.
  replace (E - -37 - (E - 16)) with 53 by lia.
  rewrite Z.shiftl_mul_pow2 by lia.
  replace (Zpos M * 2 ^ 53) with (Zpos M~0 * 4503599627370496) by lia.
  rewrite div_eucl_exact by lia.
  change (new_location 4503599627370496 0) with loc_Exact.
  rewrite xorb_false_r.
  unfold binary_round_aux, shr_fexp.
  change (Zdigits2 (Zpos M~0)) with (Zpos (Pos.succ (digits2_pos M))).
  rewrite HM. change (Pos.succ 53) with 54%positive.
  unfold fexp at 1. unfold emin.
  replace (Z.max (54 + (E - 16) - 53) (3 - 1024 - 53) - (E - 16)) with 1 by lia.
  cbn [shr shr_record_of_loc SpecFloat.iter_pos shr_1 orb shr_m
       loc_of_shr_record round_nearest_even Zdigits2].
  rewrite HM. unfold fexp, emin.
  replace (Z.max (53 + (E - 16 + 1) - 53) (3 - 1024 - 53) - (E - 16 + 1))
    with 0 by lia.
  cbn [shr shr_record_of_loc shr_m].
  replace (E - 16 + 1 <=? 1024 - 53) with true by (symmetry; apply Z.leb_le; lia).
  f_equal. lia.
Qed.

Lemma div_eucl_pair (a b : Z) : Z.div_eucl a b = (a / b, a mod b).
Proof. apply surjective_pairing. Qed.

Lemma Zdigits2_le (z n : Z) : 0 <= z < 2 ^ n -> 0 <= n -> Zdigits2 z <= n.
Proof.
  intros Hz Hn. destruct z as [|p|p]; cbn [Zdigits2]; [lia| |lia].
  apply digits2_pos_le. lia.
Qed.

(** Narrowing a 53-digit mantissa to [float]: the mantissa is shifted right
    by the [n] digits it has too many. *)
Lemma narrow (s : bool) (M : positive) (E : Z) (n : positive) :
  digits2_pos M = 53%positive ->
  fexp 24 128 (53 + E) - E = Zpos n ->
  Flt.convert binary32 (S754_finite s M E)
    = binary_round_aux 24 128 s (Zpos M) E loc_Exact
  /\ shr_fexp 24 128 (Zpos M) E loc_Exact
     = (Nat.iter (Pos.to_nat n) shr_1 (Build_shr_record (Zpos M) false false),
        E + Zpos n).
Proof.
  intros HM Hn. split.
  - unfold Flt.convert, binary_normalize. cbn [prec emax binary32].
    assert (Hr : binary_round 24 128 s M E
                 = binary_round_aux 24 128 s (Zpos M) E loc_Exact).
    { unfold binary_round, shl_align. rewrite HM, Hn. reflexivity. }
    destruct s; exact Hr.
  - unfold shr_fexp. cbn [Zdigits2]. rewrite HM, Hn.
    cbn [shr shr_record_of_loc]. rewrite iter_pos_nat. reflexivity.
Qed.

(** [float] division by 32768 when the quotient is not a normal [float]:
    the mantissa is divided by [2^t], the remainder telling how to round. *)
Lemma divide_float_low (s : bool) (m : positive) (e : Z) :
  bounded 24 128 m e = true -> e <= -134 ->
  let t := -134 - e in
  SFdiv 24 128 (S754_finite s m e) (S754_finite false 8388608 (-8))
  = binary_round_aux 24 128 s (Zpos m / 2 ^ t) (-149)
      (new_location_even (2 ^ t) (Zpos m mod 2 ^ t)).
Proof.
  intros Hb He. cbv zeta.
  destruct (bounded_float m e Hb) as (Hd & Hrange & _).
  unfold SFdiv, SFdiv_core_binary. cbn [Zdigits2].
  change (digits2_pos 8388608) with 24%positive.
  assert (He' : Z.min (fexp 24 128 (Zpos (digits2_pos m) + e - (24 + -8)))
                      (e - -8) = -149)
    by (unfold fexp, emin; lia).
  rewrite He'.
  set (p := Z.to_pos (e + 157)).
  replace (e - -8 - -149) with (Zpos p) by (subst p; lia).
  rewrite Z.shiftl_mul_pow2 by lia.
  rewrite div_eucl_pair, xorb_false_r.
  unfold new_location. change (Z.even 8388608) with true. cbv iota.
  assert (Hpow : 2 ^ Zpos p * 2 ^ (-134 - e) = 8388608).
  { rewrite <- Z.pow_add_r by lia.
    replace (Zpos p + (-134 - e)) with 23 by (subst p; lia). reflexivity. }
  assert (Hp : 0 < 2 ^ Zpos p) by (apply Z.pow_pos_nonneg; lia).
  assert (Ht : 0 < 2 ^ (-134 - e)) by (apply Z.pow_pos_nonneg; lia).
  rewrite <- Hpow.
  rewrite (Z.mul_comm (2 ^ Zpos p) (2 ^ (-134 - e))).
  rewrite Z.div_mul_cancel_r, Z.mul_mod_distr_r by lia.
  rewrite new_location_even_scale by lia.
  reflexivity.
Qed.

Lemma quotient_low (s : bool) (m : positive) (e : Z) :
  bounded 24 128 m e = true -> e <= -134 ->
  Flt.convert binary32
    (Flt.div binary64 (Flt.convert binary64 (S754_finite s m e)) pow_2_15)
  = SFdiv 24 128 (S754_finite s m e) (S754_finite false 8388608 (-8)).
Proof.
  intros Hb He.
  destruct (bounded_float m e Hb) as (Hd & Hrange & _).
  rewrite (divide_float_low s m e Hb He).
  rewrite (widen s m e Hb). cbv zeta.
  set (k := Z.to_pos (53 - Zpos (digits2_pos m))).
  assert (Hk : Zpos k = 53 - Zpos (digits2_pos m)) by (subst k; lia).
  set (M := Pos.iter xO m k).
  assert (HM : digits2_pos M = 53%positive)
    by (subst M; rewrite digits2_pos_iter_xO; lia).
  assert (HMz : Zpos M = Zpos m * 2 ^ Zpos k) by apply Zpos_iter_xO.
  rewrite (divide_double s M (e - Zpos k) HM) by lia.
  set (t := -134 - e) in *.
  set (n := Z.to_pos (Zpos k + t)).
  assert (Hn : Zpos n = Zpos k + t) by (subst n t; lia).
  assert (Hshift : fexp 24 128 (53 + (e - Zpos k - 15)) - (e - Zpos k - 15)
                   = Zpos n)
    by (unfold fexp, emin; lia).
  destruct (narrow s M (e - Zpos k - 15) n HM Hshift) as [Hconv Hfirst].
  rewrite Hconv.
  assert (Htp : 0 < 2 ^ t) by (apply Z.pow_pos_nonneg; lia).
  assert (Hkp : 0 < 2 ^ Zpos k) by (apply Z.pow_pos_nonneg; lia).
  assert (Hq : 0 <= Zpos m / 2 ^ t < 2 ^ 24).
  { pose proof (digits2_pos_bounds m) as [_ Hup].
    assert (2 ^ Zpos (digits2_pos m) <= 2 ^ 24)
      by (apply Z.pow_le_mono_r; lia).
    split; [apply Z.div_pos; lia|].
    apply Z.div_lt_upper_bound; [lia|]. nia. }
  assert (Hsecond :
    shr_fexp 24 128 (Zpos m / 2 ^ t) (-149)
             (new_location_even (2 ^ t) (Zpos m mod 2 ^ t))
    = (shr_record_of_loc (Zpos m / 2 ^ t)
         (new_location_even (2 ^ t) (Zpos m mod 2 ^ t)), -149)).
  { unfold shr_fexp.
    pose proof (Zdigits2_le (Zpos m / 2 ^ t) 24 Hq ltac:(lia)) as Hdq.
    assert (0 <= Zdigits2 (Zpos m / 2 ^ t)).
    { destruct (Zpos m / 2 ^ t); cbn [Zdigits2]; lia. }
    replace (fexp 24 128 (Zdigits2 (Zpos m / 2 ^ t) + -149) - -149)
      with 0 by (unfold fexp, emin; lia).
    reflexivity. }
  pose proof (shr_steps (Zpos M) (Pos.to_nat n) ltac:(lia)) as [Hsm Hsl].
  cbv zeta in Hsm, Hsl. rewrite positive_nat_Z in Hsm, Hsl.
  assert (Hsplit : 2 ^ Zpos n = 2 ^ t * 2 ^ Zpos k).
  { rewrite Hn, Z.add_comm, Z.pow_add_r by lia. reflexivity. }
  rewrite Hsplit in Hsm, Hsl. rewrite HMz in Hsm at 2. rewrite HMz in Hsl at 2.
  rewrite Z.div_mul_cancel_r in Hsm by lia.
  rewrite Z.mul_mod_distr_r, new_location_even_scale in Hsl by lia.
  destruct (loc_of_shr_record_of_loc (Zpos m / 2 ^ t)
              (new_location_even (2 ^ t) (Zpos m mod 2 ^ t))) as [Hm2 Hl2].
  apply binary_round_aux_ext; rewrite Hfirst, Hsecond; cbn [fst snd].
  - lia.
  - rewrite Hsm, Hm2. reflexivity.
  - rewrite Hsl, Hl2. reflexivity.
Qed.

Lemma divide_float_high (s : bool) (m : positive) (e : Z) :
  digits2_pos m = 24%positive -> -133 <= e <= 104 ->
  SFdiv 24 128 (S754_finite s m e) (S754_finite false 8388608 (-8))
  = S754_finite s m (e - 15).
Proof.
  intros Hd He.
  unfold SFdiv, SFdiv_core_binary. cbn [Zdigits2]. rewrite Hd.
  change (digits2_pos 8388608) with 24%positive.
  assert (He' : Z.min (fexp 24 128 (24 + e - (24 + -8))) (e - -8) = e - 16)
    by (unfold fexp, emin; lia).
  rewrite He'.
  replace (e - -8 - (e - 16)) with 24 by lia.
  rewrite Z.shiftl_mul_pow2 by lia.
  replace (Zpos m * 2 ^ 24) with (Zpos m~0 * 8388608) by lia.
  rewrite div_eucl_exact by lia.
  change (new_location 8388608 0) with loc_Exact.
  rewrite xorb_false_r.
  unfold binary_round_aux, shr_fexp.
  change (Zdigits2 (Zpos m~0)) with (Zpos (Pos.succ (digits2_pos m))).
  rewrite Hd. change (Pos.succ 24) with 25%positive.
  unfold fexp at 1. unfold emin.
  replace (Z.max (25 + (e - 16) - 24) (3 - 128 - 24) - (e - 16)) with 1 by lia.
  cbn [shr shr_record_of_loc SpecFloat.iter_pos shr_1 orb shr_m
       loc_of_shr_record round_nearest_even Zdigits2].
  rewrite Hd. unfold fexp, emin.
  replace (Z.max (24 + (e - 16 + 1) - 24) (3 - 128 - 24) - (e - 16 + 1))
    with 0 by lia.
  cbn [shr shr_record_of_loc shr_m].
  replace (e - 16 + 1 <=? 128 - 24) with true by (symmetry; apply Z.leb_le; lia).
  f_equal. lia.
Qed.

(** Dividing a [float] by [pow(2, 15)] in [double] and storing the quotient
    in a [float] is the [float] division by 32768. *)
Lemma quotient_rounded_once (x : float) :
  valid_binary 24 128 x = true ->
  Flt.convert binary32 (Flt.div binary64 (Flt.convert binary64 x) pow_2_15)
  = Flt.div binary32 x (Flt.of_Z binary32 32768).
Proof.
  intros Hx.
  change (Flt.of_Z binary32 32768) with (S754_finite false 8388608 (-8)).
  unfold Flt.div at 2. cbn [prec emax binary32].
  destruct x as [s|s| |s m e]; try (destruct s; reflexivity); [reflexivity|].
  cbn [valid_binary] in Hx.
  destruct (bounded_float m e Hx) as (Hd & Hrange & Hnormal).
  destruct (Z.le_gt_cases e (-134)) as [Hlow|Hhigh].
  - apply quotient_low; assumption.
  - rewrite current_lsb_exact.
    + rewrite divide_float_high by (try apply Hnormal; lia). reflexivity.
    + cbn [Flt.divisible]. rewrite Hx. apply Z.leb_le. lia.
Qed.

(** ** Construction and calibration *)

Section Construction.
Context {H : Type} `{I2C H}.
Import INA_226.

(** C8: for every configuration, construction sets [current_lsb] to
  [max_expected_current / 32768] (the quotient is formed in [double] and
  stored as a [float]; for every [float] the program can hold this is the
  [float] quotient by 32768, and whenever that quotient is a normal [float]
  it is exact: the mantissa is kept, the exponent lowered by 15), copies the
  shunt resistance and stores the address shifted left by one bit in the
  8-bit wire address, which for a 7-bit address is twice the address. *)
Theorem construction (component_config : ComponentConfig) :
let o := INA_226 component_config in
let max := max_expected_current component_config in
let address := sensor_address component_config in
m_current_lsb o
  = Flt.convert binary32
      (Flt.div binary64 (Flt.convert binary64 max) (Flt.of_Z binary64 32768))
/\ (valid_binary 24 128 max = true ->
    m_current_lsb o = Flt.div binary32 max (Flt.of_Z binary32 32768))
/\ (Flt.divisible max = true ->
    m_current_lsb o = Flt.scale2 max (-15)
    /\ (Flt.to_Q (m_current_lsb o) == Flt.to_Q max / inject_Z 32768)%Q)
/\ m_shunt_resistance o = shunt_resistance component_config
/\ m_sensor_address o = Z.shiftl address 1 mod 2 ^ 8
/\ (0 <= address < 2 ^ 7 ->
    m_sensor_address o = Z.shiftl address 1
    /\ m_sensor_address o = 2 * address
    /\ 0 <= m_sensor_address o < 2 ^ 8).
Proof.
cbv zeta.
unfold INA_226. cbn [m_current_lsb m_shunt_resistance m_sensor_address].
split; [reflexivity|].
split; [apply quotient_rounded_once|].
split.
{ intros Hmax. rewrite (current_lsb_exact _ Hmax).
  split; [reflexivity | rewrite to_Q_scale2; reflexivity]. }
split; [reflexivity|].
split; [reflexivity|].
intros Haddr. unfold u_int8_t.
rewrite Z.shiftl_mul_pow2 by lia.
rewrite Z.mod_small by lia. repeat split; lia.
Qed.

(** C4: [calibrateSensor] computes [cal] as the float quotient of 0.00512
  by the float product of [current_lsb] and the shunt resistance and sends,
  after the calibration register address, the low and the high byte of the
  integer the conversion in force makes of [cal]; the bytes are a function
  of [cal].  For 1.0 A and 0.002 ohm, [current_lsb] is 1/32768 and [cal] is
  83886.0703125; discarding the fraction gives 83886, whose two low bytes
  are 0xAE and 0x47. *)
Theorem calibration_value (integral : float -> Z) (o : t H) :
cal o
  = Flt.div binary32 (Flt.convert binary32 (Flt.literal binary64 512 5))
      (Flt.mul binary32 (m_current_lsb o) (m_shunt_resistance o))
/\ calibrateSensor integral o
   = (0, with_i2c o (snd (register_write o (m_calibration_register o)
             (byte.of_Z (Z.land (integral (cal o)) 0xFF))
             (byte.of_Z (Z.land (Z.shiftr (integral (cal o)) 8) 0xFF)))))
/\ (let bench := INA_226 bench_config in
    (Flt.to_Q (m_current_lsb bench) == 1 # 32768)%Q
    /\ (Flt.to_Q (cal bench) == 83886 + (9 # 128))%Q
    /\ Flt.trunc (cal bench) = 83886
    /\ byte.of_Z (Z.land (Flt.trunc (cal bench)) 0xFF) = Byte.xae
    /\ byte.of_Z (Z.land (Z.shiftr (Flt.trunc (cal bench)) 8) 0xFF)
       = Byte.x47).
Proof.
split; [reflexivity|].
split; [apply calibrateSensor_run|].
cbv zeta. repeat split; vm_compute; reflexivity.
Qed.
End Construction.

Lemma construction_witness :
  valid_binary 24 128 (max_expected_current bench_config) = true
  /\ Flt.divisible (max_expected_current bench_config) = true
  /\ 0 <= sensor_address bench_config < 2 ^ 7
  /\ INA_226.m_sensor_address absent_chip = 0x80
  /\ INA_226.m_current_lsb absent_chip = S754_finite false 8388608 (-38)
  /\ INA_226.m_current_lsb absent_chip
     = Flt.div binary32 (Flt.of_Z binary32 1) (Flt.of_Z binary32 32768).
Proof.
  assert (Hvalid : valid_binary 24 128 (max_expected_current bench_config)
                   = true) by reflexivity.
  assert (Hmax : Flt.divisible (max_expected_current bench_config) = true)
    by reflexivity.
  assert (Haddr : 0 <= sensor_address bench_config < 2 ^ 7)
    by (cbn; lia).
  destruct (construction (H := unit) bench_config)
    as (_ & Hdiv & Hexact & _ & _ & Hwire).
  split; [exact Hvalid|]. split; [exact Hmax|]. split; [exact Haddr|].
  split; [exact (proj1 (proj2 (Hwire Haddr)))|].
  split; [exact (proj1 (Hexact Hmax)) | exact (Hdiv Hvalid)].
Defined.

(** A maximum expected current of 16777215 * 2^-140 A is a valid [float]
    whose 32768th part is not a normal [float]: the stored resolution is
    the rounded quotient 262144 * 2^-149, the value of the [float]
    division. *)
Example construction_rounds_tiny_current :
  let tiny := S754_finite false 16777215 (-140) in
  valid_binary 24 128 tiny = true
  /\ Flt.divisible tiny = false
  /\ INA_226.m_current_lsb
       (INA_226.INA_226 (H := unit)
          (Build_ComponentConfig tiny (S754_zero false) 0x40 0 1))
     = S754_finite false 262144 (-149)
  /\ Flt.div binary32 tiny (Flt.of_Z binary32 32768)
     = S754_finite false 262144 (-149).
Proof. repeat split; vm_compute; reflexivity. Qed.

(** * Further properties of the driver *)

(** ** What the write operations put on the wire *)

Lemma split_le16_mod (n : Z) :
  le16 (byte.of_Z (Z.land n 0xFF)) (byte.of_Z (Z.land (Z.shiftr n 8) 0xFF))
  = n mod 2 ^ 16.
Proof.
  unfold le16. rewrite high_byte, low_byte.
  change (2 ^ 16) with (2 ^ 8 * 2 ^ 8).
  rewrite Z.rem_mul_r by lia. lia.
Qed.

Section Wire.
Context {H : Type} `{I2C H}.
Import INA_226.

(** X1: [configureSensor], [setMaskEnableRegister] and [setAlertLimit] each
    send, after the register address, two bytes that read low byte first as
    the 16-bit value itself: the configuration word, resp. the argument
    reduced modulo 2^16.  Nothing of the 16 bits is lost or reordered. *)
Theorem integer_writers_encode
        (configuration_bits : SensorModes) (bits_to_set alert_limit : Z)
        (o : t H) :
  (exists lo hi : byte,
     configureSensor configuration_bits o
       = (0, with_i2c o (snd (register_write o (m_config_register o) lo hi)))
     /\ le16 lo hi = dataByte configuration_bits)
  /\ (exists lo hi : byte,
        setMaskEnableRegister bits_to_set o
          = (0, with_i2c o
                  (snd (register_write o (m_mask_enable_register o) lo hi)))
        /\ le16 lo hi = bits_to_set mod 2 ^ 16)
  /\ (exists lo hi : byte,
        setAlertLimit alert_limit o
          = (0, with_i2c o
                  (snd (register_write o (m_alert_limit_register o) lo hi)))
        /\ le16 lo hi = alert_limit mod 2 ^ 16).
Proof.
  assert (Hidem : forall z, u_int16_t z mod 2 ^ 16 = u_int16_t z)
    by (intros z; unfold u_int16_t; apply Z.mod_mod; lia).
  split; [|split].
  - exists (byte.of_Z (Z.land (dataByte configuration_bits) 0xFF)),
      (byte.of_Z (Z.land (Z.shiftr (dataByte configuration_bits) 8) 0xFF)).
    split; [apply configureSensor_run|].
    rewrite split_le16_mod. unfold dataByte. apply Hidem.
  - exists (byte.of_Z (Z.land (u_int16_t bits_to_set) 0xFF)),
      (byte.of_Z (Z.land (Z.shiftr (u_int16_t bits_to_set) 8) 0xFF)).
    split; [apply setMaskEnableRegister_run|].
    rewrite split_le16_mod. apply Hidem.
  - exists (byte.of_Z (Z.land (u_int16_t alert_limit) 0xFF)),
      (byte.of_Z (Z.land (Z.shiftr (u_int16_t alert_limit) 8) 0xFF)).
    split; [apply setAlertLimit_run|].
    rewrite split_le16_mod. apply Hidem.
Qed.

(** X2: [calibrateSensor] sends only the low 16 bits of the integer made of
    [cal]: the two bytes read as that integer modulo 2^16, so a calibration
    value of 65536 or more reaches the chip without its high bits. *)
Theorem calibration_wraps (integral : float -> Z) (o : t H) :
  exists lo hi : byte,
    calibrateSensor integral o
      = (0, with_i2c o
              (snd (register_write o (m_calibration_register o) lo hi)))
    /\ le16 lo hi = integral (cal o) mod 2 ^ 16.
Proof.
  exists (byte.of_Z (Z.land (integral (cal o)) 0xFF)),
    (byte.of_Z (Z.land (Z.shiftr (integral (cal o)) 8) 0xFF)).
  split; [apply calibrateSensor_run | apply split_le16_mod].
Qed.

(** X4: no accessor changes the maximum expected current, the current
    resolution, the shunt resistance or the wire address, so the value
    [calibrateSensor] computes is the same before and after any call. *)
Theorem scalars_preserved
        (configuration_bits : SensorModes) (integral : float -> Z)
        (bits_to_set alert_limit : Z) (o : t H) :
  let kept (o' : t H) := scalars o' = scalars o /\ cal o' = cal o in
  kept (snd (getCurrentData o))
  /\ kept (snd (getVoltageData o))
  /\ kept (snd (getPowerData o))
  /\ kept (snd (getAlertLimit o))
  /\ kept (snd (configureSensor configuration_bits o))
  /\ kept (snd (calibrateSensor integral o))
  /\ kept (snd (setMaskEnableRegister bits_to_set o))
  /\ kept (snd (setAlertLimit alert_limit o)).
Proof.
  cbv zeta.
  rewrite getCurrentData_run, getVoltageData_run, getPowerData_run,
    getAlertLimit_run, configureSensor_run, calibrateSensor_run,
    setMaskEnableRegister_run, setAlertLimit_run.
  cbn [snd]. repeat split; reflexivity.
Qed.
End Wire.

(** X3 needs the configuration word as a sum. *)

Lemma lor_shiftl_add (a b k : Z) :
  0 <= k -> 0 <= a < 2 ^ k -> Z.lor a (Z.shiftl b k) = a + b * 2 ^ k.
Proof.
  intros Hk Ha.
  pose proof (Z.add_lor_land a (Z.shiftl b k)) as Hsum.
  assert (Hland : Z.land a (Z.shiftl b k) = 0).
  { apply Z.bits_inj'. intros n Hn.
    rewrite Z.land_spec, Z.bits_0.
    destruct (Z.ltb_spec n k).
    - rewrite Z.shiftl_spec_low by lia. apply andb_false_r.
    - rewrite <- (Z.mod_small a (2 ^ k)) by lia.
      rewrite Z.mod_pow2_bits_high by lia. reflexivity. }
  rewrite Hland, Z.shiftl_mul_pow2 in Hsum by lia.
  rewrite Z.shiftl_mul_pow2 by lia. lia.
Qed.

Lemma dataByte_in_range (c : SensorModes) :
  0 <= operation_mode c < 8 ->
  0 <= shunt_voltage_conversion_setting c < 8 ->
  0 <= bus_voltage_conversion_setting c < 8 ->
  0 <= average_mode_setting c < 8 ->
  0 <= reset_registers c < 2 ->
  INA_226.dataByte c
  = operation_mode c + 8 * shunt_voltage_conversion_setting c
    + 64 * bus_voltage_conversion_setting c
    + 512 * average_mode_setting c + 32768 * reset_registers c.
Proof.
  intros Ho Hs Hb Ha Hr.
  rewrite dataByte_closed_form.
  rewrite (lor_shiftl_add (operation_mode c) _ 3) by lia.
  rewrite (lor_shiftl_add _ _ 6) by lia.
  rewrite (lor_shiftl_add _ _ 9) by lia.
  rewrite (lor_shiftl_add _ _ 15) by lia.
  unfold u_int16_t. rewrite Z.mod_small; lia.
Qed.

(** X3: when every sub-field is within its width (three bits for the mode,
    the two conversion times and the averaging count, one bit for the reset
    flag) the configuration word keeps each of them in its own bit group:
    bits 0-2, 3-5, 6-8, 9-11 and 15 give the fields back and bits 12-14 are
    zero. *)
Theorem configuration_fields_decode (c : SensorModes) :
  0 <= operation_mode c < 8 ->
  0 <= shunt_voltage_conversion_setting c < 8 ->
  0 <= bus_voltage_conversion_setting c < 8 ->
  0 <= average_mode_setting c < 8 ->
  0 <= reset_registers c < 2 ->
  let word := INA_226.dataByte c in
  Z.land word 7 = operation_mode c
  /\ Z.land (Z.shiftr word 3) 7 = shunt_voltage_conversion_setting c
  /\ Z.land (Z.shiftr word 6) 7 = bus_voltage_conversion_setting c
  /\ Z.land (Z.shiftr word 9) 7 = average_mode_setting c
  /\ Z.land (Z.shiftr word 12) 7 = 0
  /\ Z.shiftr word 15 = reset_registers c.
Proof.
  intros Ho Hs Hb Ha Hr. cbv zeta.
  rewrite (dataByte_in_range c Ho Hs Hb Ha Hr).
  change 7 with (Z.ones 3).
  rewrite !Z.land_ones, !Z.shiftr_div_pow2 by lia.
  change (2 ^ 3) with 8. change (2 ^ 6) with 64. change (2 ^ 9) with 512.
  change (2 ^ 12) with 4096. change (2 ^ 15) with 32768.
  repeat split; Z.div_mod_to_equations; lia.
Qed.

Lemma configuration_fields_decode_witness :
  let c := Build_SensorModes 7 4 4 2 1 in
  INA_226.dataByte c = 0x8527
  /\ Z.land (Z.shiftr (INA_226.dataByte c) 9) 7 = 2.
Proof.
  cbv zeta.
  pose proof (configuration_fields_decode (Build_SensorModes 7 4 4 2 1)
                ltac:(cbn; lia) ltac:(cbn; lia) ltac:(cbn; lia)
                ltac:(cbn; lia) ltac:(cbn; lia))
    as (_ & _ & _ & Havg & _).
  split; [reflexivity | exact Havg].
Defined.

(** ** Behaviour on the two buses *)

Section Store.
Import INA_226.

(** X6: on a bus where every transaction is refused and the buffer is left
    alone, each reader takes the register address it had put in the buffer
    for the register value: [getAlertLimit] returns the alert-limit register
    address and the three measurements are that of their register address
    times the scale constant. *)
Theorem refused_read_returns_register_address (o : INA_226.t unit) :
  fst (getCurrentData o)
    = scaled INA_226_CURRENT_REGISTER_LSB (byte.unsigned (m_current_register o))
  /\ fst (getVoltageData o)
    = scaled INA_226_VOLTAGE_REGISTER_LSB (byte.unsigned (m_voltage_register o))
  /\ fst (getPowerData o)
    = scaled INA_226_POWER_REGISTER_LSB (byte.unsigned (m_power_register o))
  /\ fst (getAlertLimit o) = byte.unsigned (m_alert_limit_register o).
Proof.
  rewrite getCurrentData_run, getVoltageData_run, getPowerData_run,
    getAlertLimit_run.
  cbn [fst].
  assert (Hraw : forall reg, raw o reg = byte.unsigned reg).
  { intros reg. unfold raw, first_byte, second_byte, data_read, le16.
    cbn [i2c_read Unresponsive.transport fst snd nth].
    change (byte.unsigned Byte.x00) with 0. lia. }
  rewrite !Hraw. repeat split; reflexivity.
Qed.


Lemma data_read_keeps_registers (o : t RegisterStore.bus) (reg : byte) :
  RegisterStore.registers (snd (data_read o reg))
  = RegisterStore.registers (i2c_ o).
Proof.
  unfold data_read, pointer_write.
  cbn [i2c_read i2c_write RegisterStore.transport].
  unfold RegisterStore.read, RegisterStore.write.
  cbn [firstn snd RegisterStore.pointer RegisterStore.registers].
  destruct (RegisterStore.registers (i2c_ o) !! byte.unsigned reg);
    reflexivity.
Qed.

Lemma register_write_stores (o : t RegisterStore.bus) (reg lo hi : byte) :
  RegisterStore.registers (snd (register_write o reg lo hi))
  = <[byte.unsigned reg := [lo; hi]]> (RegisterStore.registers (i2c_ o)).
Proof. reflexivity. Qed.

Lemma stored_after_read (v : Z) (o : t RegisterStore.bus) (reg : byte) :
  alert_limit_stored v o ->
  alert_limit_stored v (with_i2c o (snd (data_read o reg))).
Proof.
  intros [Hmap Hreg]. split; [exact Hmap|].
  cbn [i2c_ with_i2c]. rewrite data_read_keeps_registers. exact Hreg.
Qed.

Lemma stored_after_write (v : Z) (o : t RegisterStore.bus) (reg lo hi : byte) :
  byte.unsigned reg <> 7 ->
  alert_limit_stored v o ->
  alert_limit_stored v (with_i2c o (snd (register_write o reg lo hi))).
Proof.
  intros Hreg [Hmap Hstored]. split; [exact Hmap|].
  cbn [i2c_ with_i2c]. rewrite register_write_stores.
  rewrite lookup_insert_ne by exact Hreg. exact Hstored.
Qed.

Lemma datasheet_registers (o : t RegisterStore.bus) :
  register_map o = datasheet_map ->
  m_config_register o = Byte.x00 /\ m_voltage_register o = Byte.x01
  /\ m_power_register o = Byte.x03 /\ m_current_register o = Byte.x04
  /\ m_calibration_register o = Byte.x05
  /\ m_mask_enable_register o = Byte.x06
  /\ m_alert_limit_register o = Byte.x07.
Proof.
  unfold register_map, datasheet_map. intros Hmap.
  injection Hmap as -> -> -> -> -> -> ->. repeat split; reflexivity.
Qed.

Lemma setAlertLimit_stores (v : Z) (o : t RegisterStore.bus) :
  register_map o = datasheet_map -> 0 <= v < 2 ^ 16 ->
  alert_limit_stored v (snd (setAlertLimit v o)).
Proof.
  intros Hmap Hv. rewrite setAlertLimit_run. cbn [snd].
  split; [exact Hmap|].
  destruct (datasheet_registers o Hmap) as (_ & _ & _ & _ & _ & _ & H7).
  cbn [i2c_ with_i2c]. rewrite register_write_stores, H7.
  unfold u_int16_t. rewrite (Z.mod_small v) by lia.
  apply lookup_insert_eq.
Qed.

(** X7: on the register store a read accessor never alters a stored
    register: its pointer write carries the register address alone. *)
Theorem readers_leave_registers (o : t RegisterStore.bus) :
  let registers_after (o' : t RegisterStore.bus) :=
    RegisterStore.registers (i2c_ o') in
  registers_after (snd (getCurrentData o)) = registers_after o
  /\ registers_after (snd (getVoltageData o)) = registers_after o
  /\ registers_after (snd (getPowerData o)) = registers_after o
  /\ registers_after (snd (getAlertLimit o)) = registers_after o.
Proof.
  cbv zeta.
  rewrite getCurrentData_run, getVoltageData_run, getPowerData_run,
    getAlertLimit_run.
  cbn [snd i2c_ with_i2c]. rewrite !data_read_keeps_registers.
  repeat split; reflexivity.
Qed.

(** X8: once the register store holds the two bytes of a 16-bit [v] in the
    alert-limit register of a driver with the constructor's register map,
    [getAlertLimit] returns [v], and every accessor other than
    [setAlertLimit] leaves that state in place; so the limit read back is
    the one last set, whatever was read or written in between. *)
Theorem alert_limit_kept
        (configuration_bits : SensorModes) (integral : float -> Z)
        (bits_to_set v : Z) (o : t RegisterStore.bus) :
  0 <= v < 2 ^ 16 ->
  alert_limit_stored v o ->
  fst (getAlertLimit o) = v
  /\ alert_limit_stored v (snd (getAlertLimit o))
  /\ alert_limit_stored v (snd (getCurrentData o))
  /\ alert_limit_stored v (snd (getVoltageData o))
  /\ alert_limit_stored v (snd (getPowerData o))
  /\ alert_limit_stored v (snd (configureSensor configuration_bits o))
  /\ alert_limit_stored v (snd (calibrateSensor integral o))
  /\ alert_limit_stored v (snd (setMaskEnableRegister bits_to_set o)).
Proof.
  intros Hv Hstored.
  destruct (datasheet_registers o (proj1 Hstored))
    as (H0 & H1 & H3 & H4 & H5 & H6 & H7).
  rewrite getCurrentData_run, getVoltageData_run, getPowerData_run,
    getAlertLimit_run, configureSensor_run, calibrateSensor_run,
    setMaskEnableRegister_run.
  cbn [fst snd].
  split.
  - destruct Hstored as [_ Hreg]. rewrite H7.
    unfold raw, first_byte, second_byte, data_read, pointer_write.
    cbn [i2c_read i2c_write RegisterStore.transport].
    unfold RegisterStore.read, RegisterStore.write.
    cbn [firstn snd RegisterStore.pointer RegisterStore.registers].
    change (byte.unsigned Byte.x07) with 7. rewrite Hreg.
    cbn [firstn List.length skipn app fst snd nth].
    apply split_le16. exact Hv.
  - refine (conj _ (conj _ (conj _ (conj _ (conj _ (conj _ _))))));
      try (apply stored_after_read; exact Hstored);
      apply stored_after_write; try exact Hstored.
    + rewrite H0. discriminate.
    + rewrite H5. discriminate.
    + rewrite H6. discriminate.
Qed.

End Store.

Lemma alert_limit_kept_witness :
  0 <= 0x1234 < 2 ^ 16
  /\ alert_limit_stored 0x1234 (snd (INA_226.setAlertLimit 0x1234 present_chip))
  /\ fst (INA_226.getAlertLimit
            (snd (INA_226.getCurrentData
               (snd (INA_226.setMaskEnableRegister 0x8000
                  (snd (INA_226.setAlertLimit 0x1234 present_chip))))))) = 0x1234.
Proof.
  assert (Hv : 0 <= 0x1234 < 2 ^ 16) by lia.
  assert (Hmap : INA_226.register_map present_chip = datasheet_map) by reflexivity.
  pose proof (setAlertLimit_stores 0x1234 present_chip Hmap Hv) as H1.
  set (o1 := snd (INA_226.setAlertLimit 0x1234 present_chip)) in *.
  pose proof (alert_limit_kept (Build_SensorModes 7 0 0 0 0) Flt.trunc
                0x8000 0x1234 o1 Hv H1) as (_ & _ & _ & _ & _ & _ & _ & H2).
  set (o2 := snd (INA_226.setMaskEnableRegister 0x8000 o1)) in *.
  pose proof (alert_limit_kept (Build_SensorModes 7 0 0 0 0) Flt.trunc
                0x8000 0x1234 o2 Hv H2) as (_ & _ & H3 & _).
  split; [exact Hv|]. split; [exact H1|].
  exact (proj1 (alert_limit_kept (Build_SensorModes 7 0 0 0 0) Flt.trunc
                  0x8000 0x1234 _ Hv H3)).
Defined.

(** ** Calibration with a zero divisor *)

Section Divisor.
Import INA_226.

(** X9: [calibrateSensor] divides without a guard: when the shunt
    resistance or the current resolution is zero (the other being finite)
    the calibration value [cal] is an infinity. *)
Theorem zero_divisor_gives_infinity {H : Type} `{I2C H} (o : t H) :
  (exists s, m_shunt_resistance o = S754_zero s
             /\ Flt.is_finite (m_current_lsb o) = true)
  \/ (exists s, m_current_lsb o = S754_zero s
                /\ Flt.is_finite (m_shunt_resistance o) = true) ->
  exists sign : bool, cal o = S754_infinity sign.
Proof.
  unfold cal.
  change INA_226_CALIBRATION_REGISTER_CONSTANT
    with (S754_finite false 10995116 (-31)).
  intros [[s [Hzero Hfin]]|[s [Hzero Hfin]]]; rewrite Hzero.
  - destruct (m_current_lsb o) as [s'|s'| |s' m e]; try discriminate Hfin;
      exists (xorb false (xorb s' s)); reflexivity.
  - destruct (m_shunt_resistance o) as [s'|s'| |s' m e];
      try discriminate Hfin;
      exists (xorb false (xorb s s')); reflexivity.
Qed.

End Divisor.

Lemma zero_divisor_gives_infinity_witness :
  exists sign : bool, INA_226.cal shorted_chip = S754_infinity sign.
Proof.
  apply (zero_divisor_gives_infinity shorted_chip).
  left. exists false. split; reflexivity.
Defined.

(** ** Monotonicity of the readings *)

Lemma all_below_spec (P : Z -> bool) (k : Z) :
  all_from P 0 (Z.to_nat k) = true -> 0 <= k ->
  forall z, 0 <= z < k -> P z = true.
Proof.
  generalize (Z2Nat.id k). generalize (Z.to_nat k).
  intros n Hn Hall Hk z Hz.
  apply (all_from_spec P n 0 Hall). lia.
Qed.

Lemma scalings_step_up (q : quantity) :
  all_from (steps_up (lsb_of q)) 0 (Z.to_nat 65535) = true.
Proof. destruct q; vm_compute; reflexivity. Qed.

Lemma increasing_from_steps (f : Z -> Q) (hi : Z) :
  (forall v, 0 <= v < hi -> Qlt (f v) (f (v + 1))) ->
  forall (n : nat) (v : Z),
    0 <= v -> v + 1 + Z.of_nat n <= hi ->
    Qlt (f v) (f (v + 1 + Z.of_nat n)).
Proof.
  intros Hstep n. induction n as [|n IH]; intros v Hv Hhi.
  - rewrite Z.add_0_r. apply Hstep. lia.
  - apply Qlt_trans with (f (v + 1 + Z.of_nat n)).
    + apply IH; lia.
    + replace (v + 1 + Z.of_nat (S n)) with (v + 1 + Z.of_nat n + 1) by lia.
      apply Hstep. lia.
Qed.

Lemma scaled_increasing (q : quantity) (v w : Z) :
  0 <= v -> v < w -> w < 2 ^ 16 ->
  (Flt.to_Q (scaled (lsb_of q) v) < Flt.to_Q (scaled (lsb_of q) w))%Q.
Proof.
  intros Hv Hvw Hw.
  replace w with (v + 1 + Z.of_nat (Z.to_nat (w - v - 1))) by lia.
  apply (increasing_from_steps
           (fun z => Flt.to_Q (scaled (lsb_of q) z)) 65535); [|lia|lia].
  intros z Hz.
  pose proof (all_below_spec _ 65535 (scalings_step_up q) ltac:(lia) z Hz)
    as Hstep.
  unfold steps_up in Hstep.
  apply andb_prop in Hstep as [_ Hlt].
  apply negb_true_iff in Hlt.
  apply Qnot_le_lt. intros Hle. apply Qle_bool_iff in Hle. congruence.
Qed.

Section Monotone.
Context {H : Type} `{I2C H}.
Import INA_226.

Lemma reader_run (q : quantity) (o : t H) :
  fst (reader q o) = scaled (lsb_of q) (raw o (register_of q o)).
Proof.
  destruct q; cbn [reader lsb_of register_of].
  - rewrite getCurrentData_run. reflexivity.
  - rewrite getVoltageData_run. reflexivity.
  - rewrite getPowerData_run. reflexivity.
Qed.

(** X5: each of the three readers is strictly increasing in the raw
    register value: a larger raw value always gives a larger reading, so no
    two raw values yield the same measurement. *)
Theorem readings_strictly_increasing (q : quantity) (o1 o2 : t H) :
  raw o1 (register_of q o1) < raw o2 (register_of q o2) ->
  (Flt.to_Q (fst (reader q o1)) < Flt.to_Q (fst (reader q o2)))%Q.
Proof.
  intros Hlt. rewrite !reader_run.
  pose proof (le16_range (first_byte o1 (register_of q o1))
                         (second_byte o1 (register_of q o1))).
  pose proof (le16_range (first_byte o2 (register_of q o2))
                         (second_byte o2 (register_of q o2))).
  apply scaled_increasing; unfold raw in *; lia.
Qed.
End Monotone.

Lemma readings_strictly_increasing_witness :
  raw (chip_holding Byte.x04 Byte.x00) Byte.x04
    < raw (chip_holding Byte.x05 Byte.x00) Byte.x04
  /\ (Flt.to_Q (fst (INA_226.getCurrentData (chip_holding Byte.x04 Byte.x00)))
      < Flt.to_Q (fst (INA_226.getCurrentData (chip_holding Byte.x05 Byte.x00))))%Q.
Proof.
  assert (Hlt : raw (chip_holding Byte.x04 Byte.x00) Byte.x04
                < raw (chip_holding Byte.x05 Byte.x00) Byte.x04)
    by (vm_compute; reflexivity).
  split; [exact Hlt|].
  exact (readings_strictly_increasing Current _ _ Hlt).
Defined.

(** ** Successive reads *)

Section Interference.
Import INA_226.

Lemma raw_of_registers (o1 o2 : t RegisterStore.bus) (reg : byte) :
  RegisterStore.registers (i2c_ o1) = RegisterStore.registers (i2c_ o2) ->
  raw o1 reg = raw o2 reg.
Proof.
  intros Hsame.
  unfold raw, first_byte, second_byte, data_read, pointer_write.
  cbn [i2c_read i2c_write RegisterStore.transport].
  unfold RegisterStore.read, RegisterStore.write.
  cbn [firstn snd RegisterStore.pointer RegisterStore.registers].
  rewrite Hsame. reflexivity.
Qed.

Lemma reader_state (q : quantity) (o : t RegisterStore.bus) :
  snd (reader q o) = with_i2c o (snd (data_read o (register_of q o))).
Proof.
  destruct q; cbn [reader register_of].
  - rewrite getCurrentData_run. reflexivity.
  - rewrite getVoltageData_run. reflexivity.
  - rewrite getPowerData_run. reflexivity.
Qed.

Lemma register_of_with_i2c (q : quantity) (o : t RegisterStore.bus)
      (b : RegisterStore.bus) :
  register_of q (with_i2c o b) = register_of q o.
Proof. destruct q; reflexivity. Qed.

(** X10: on the register store a measurement does not depend on what was
    read before it: every reader selects its own register again, so reading
    one quantity leaves the value any later read returns unchanged. *)
Theorem reads_do_not_interfere (q q' : quantity) (o : t RegisterStore.bus) :
  fst (reader q (snd (reader q' o))) = fst (reader q o)
  /\ fst (reader q (snd (getAlertLimit o))) = fst (reader q o)
  /\ fst (getAlertLimit (snd (reader q' o))) = fst (getAlertLimit o).
Proof.
  rewrite !reader_run, !getAlertLimit_run, !reader_state. cbn [fst snd].
  rewrite !register_of_with_i2c.
  change (m_alert_limit_register
            (with_i2c o (snd (data_read o (register_of q' o)))))
    with (m_alert_limit_register o).
  assert (Hraw : forall reg reg',
            raw (with_i2c o (snd (data_read o reg'))) reg = raw o reg).
  { intros reg reg'. apply raw_of_registers.
    cbn [i2c_ with_i2c]. apply data_read_keeps_registers. }
  rewrite !Hraw. repeat split; reflexivity.
Qed.
End Interference.
